(** * The conversational agent of [ai_agent.py]

    A shallow embedding of the [Agent] class: the message log with its
    token estimate and trimming policy, the tool registry, the built-in
    tools, and the [send_message] loop with its tool-call rounds.

    The agent object is a record that every method takes and returns.
    What lies outside the program (the completion endpoint, the clock, the
    remote tool servers, [json.loads], the order in which gathered
    coroutines complete) is an [Environment] of functions the model asks. *)

From Stdlib Require Import ZArith Lia DecimalString.
From stdpp Require Import base option list gmap strings.

Set Default Proof Using "Type".

(* ===================================================================== *)
(** * Data model                                                          *)
(* ===================================================================== *)

(** The four values the ["role"] key of a message takes. *)
Inductive Role := system | user | assistant | tool.

#[global] Instance Role_eq_dec : EqDecision Role.
Proof. solve_decision. Defined.

(** [tool_call.function]: the name and the argument text as the model
    produced them. *)
Record Function := {
  fn_name : string;
  fn_arguments : string }.

(** One entry of [assistant_message.tool_calls]. *)
Record ToolCall := {
  call_id : string;
  call_function : Function }.

(** A message of the log is a dict with the keys ["role"] and ["content"]
    and, on some messages, ["tool_call_id"], ["name"] and ["tool_calls"];
    an absent key is [None].  [content] is text whose [len] is its number
    of characters. *)
Record Message := {
  role : Role;
  content : string;
  tool_call_id : option string;
  name : option string;
  tool_calls : option (list ToolCall) }.

(** The dict literals the source builds. *)
Definition system_message (message : string) : Message :=
  {| role := system; content := message;
     tool_call_id := None; name := None; tool_calls := None |}.

Definition user_message (message : string) : Message :=
  {| role := user; content := message;
     tool_call_id := None; name := None; tool_calls := None |}.

Definition tool_message (id function_name tool_response : string) : Message :=
  {| role := tool; content := tool_response;
     tool_call_id := Some id; name := Some function_name;
     tool_calls := None |}.

(** [self._context[0]["content"] = message]: the dict keeps its other keys. *)
Definition set_content (message : string) (m : Message) : Message :=
  {| role := role m; content := message;
     tool_call_id := tool_call_id m; name := name m;
     tool_calls := tool_calls m |}.

Definition is_system (m : Message) : bool := bool_decide (role m = system).

(** The tools of the registry: the three built-in classes and the proxy of
    a remote tool ([MCPTool], with the remote name and its [is_persistent]
    flag; the client object and the metadata dict play no part here). *)
Inductive Tool :=
| GetDatetimeTool
| GetTotalContextTokensTool
| ClearContextTool
| MCPTool (remote_name : string) (is_persistent : bool).

(** [AgentSettings], the two fields the loop and the trimming read. *)
Record AgentSettings := {
  max_tool_call_iterations : Z;
  max_context_tokens : Z }.

Definition default_settings : AgentSettings :=
  {| max_tool_call_iterations := 5; max_context_tokens := 4000 |}.

(** The fields of [Agent] that the conversation logic reads or writes. *)
Record Agent := {
  _max_tool_call_iterations : Z;
  _max_context_tokens : Z;
  _context : list Message;
  _total_context_tokens : Z;
  _tools : gmap string Tool }.

Definition with_context (l : list Message) (a : Agent) : Agent :=
  {| _max_tool_call_iterations := _max_tool_call_iterations a;
     _max_context_tokens := _max_context_tokens a;
     _context := l;
     _total_context_tokens := _total_context_tokens a;
     _tools := _tools a |}.

Definition with_total_context_tokens (n : Z) (a : Agent) : Agent :=
  {| _max_tool_call_iterations := _max_tool_call_iterations a;
     _max_context_tokens := _max_context_tokens a;
     _context := _context a;
     _total_context_tokens := n;
     _tools := _tools a |}.

(** [Agent.__init__]. *)
Definition new_agent (settings : AgentSettings) : Agent :=
  {| _max_tool_call_iterations := max_tool_call_iterations settings;
     _max_context_tokens := max_context_tokens settings;
     _context := [];
     _total_context_tokens := 0;
     _tools := <["get_datetime" := GetDatetimeTool]>
               (<["get_total_context_tokens" := GetTotalContextTokensTool]>
               (<["clear_context" := ClearContextTool]> ∅)) |}.

(* ===================================================================== *)
(** * Conversation state                                                  *)
(* ===================================================================== *)

(** [self._context.append(m)]. *)
Definition append (m : Message) (a : Agent) : Agent :=
  with_context (_context a ++ [m]) a.

(** [Agent.reset_context]: both assignments, in the order of the source.
    The method is a plain [def]: no [await] separates the two. *)
Definition reset_context (a : Agent) : Agent :=
  with_total_context_tokens 0 (with_context [] a).

(** [Agent.set_system_message]. *)
Definition set_system_message (message : string) (a : Agent) : Agent :=
  match _context a with
  | m :: rest =>
      if is_system m
      then with_context (set_content message m :: rest) a
      else with_context ([system_message message] ++ _context a) a
  | [] => with_context ([system_message message] ++ _context a) a
  end.

(** [len(removed.get("content", "")) // 4]. *)
Definition estimate (removed : Message) : Z :=
  (Z.of_nat (String.length (content removed)) / 4)%Z.

(** One pass through the [while] of [Agent.trim_context]: [None] when the
    loop ends (condition false, or [break]), the next state otherwise. *)
Definition trim_step (a : Agent) : option Agent :=
  if bool_decide (_total_context_tokens a > _max_context_tokens a)%Z
     && bool_decide (1 < length (_context a))
  then
    match _context a !! 1 with
    | Some removed =>
        if is_system removed then None
        else Some (with_total_context_tokens
                     (_total_context_tokens a - estimate removed)%Z
                     (with_context (delete 1 (_context a)) a))
    | None => None
    end
  else None.

Fixpoint trim_loop (fuel : nat) (a : Agent) : Agent :=
  match fuel with
  | O => a
  | S fuel' =>
      match trim_step a with
      | Some a' => trim_loop fuel' a'
      | None => a
      end
  end.

(** [Agent.trim_context].  Every pass removes one message, so the length
    of the log bounds the number of passes ([trim_context_exits]). *)
Definition trim_context (a : Agent) : Agent :=
  trim_loop (length (_context a)) a.

(** [str] of a Python [int]. *)
Definition str_int (n : Z) : string :=
  NilZero.string_of_int (Z.to_int n).

(* ===================================================================== *)
(** * The outside world                                                   *)
(* ===================================================================== *)

(** The values [json.loads] returns. *)
#[local] Unset Elimination Schemes.
Inductive JsonValue :=
| JNull
| JBool (b : bool)
| JNumber (literal : string)
| JString (s : string)
| JArray (items : list JsonValue)
| JObject (members : list (string * JsonValue)).
#[local] Set Elimination Schemes.

(** What [json.loads] makes of a text: a JSON value, a [JSONDecodeError]
    with its message, or an exception of another class with its message
    ([RecursionError] on text nested too deep, [ValueError] on an integer
    of more digits than the interpreter converts). *)
Inductive JsonLoads :=
| JSONDecodeError (what : string)
| Loaded (value : JsonValue)
| LoadsRaised (class_name what : string).

(** A call either returns or raises; [Exception] carries the class name
    and [str(e)]. *)
Record Exception := {
  exc_class : string;
  exc_str : string }.

Inductive Result (A : Type) :=
| Ok (value : A)
| Raise (e : Exception).
Arguments Ok {A} value.
Arguments Raise {A} e.

(** [response.choices[0].message] and [response.usage.total_tokens]. *)
Record ChatCompletionMessage := {
  message_content : option string;
  message_tool_calls : option (list ToolCall) }.

Record ChatCompletion := {
  choice_message : ChatCompletionMessage;
  usage_total_tokens : Z }.

(** The answer of a remote tool server to [client.call_tool]: an exception
    (of class [Exception]: transport failure, tool error, a content block
    without text) or the texts of [result.content]. *)
Inductive RemoteResult :=
| RemoteRaised (what : string)
| RemoteContent (texts : list string).

(** A coroutine [self._call_tool_safe(tool, function_args, tool_call_id,
    function_name)] waiting in [tool_tasks]. *)
Record Task := {
  task_tool : Tool;
  task_args : JsonValue;
  task_call_id : string;
  task_name : string }.

(** The collaborators of the agent.  [create] is
    [self._client.chat.completions.create], asked at a given iteration of
    the loop with the agent as it stands.  The clock and the remote servers
    answer per invocation, which the call id identifies.  [type_error] is
    the text of the [TypeError] Python raises when [**function_args] does
    not fit the signature of [call].  [completion_order] is the order in
    which the coroutines handed to [asyncio.gather] reach their end. *)
Record Environment := {
  create : nat → Agent → Result ChatCompletion;
  json_loads : string → JsonLoads;
  type_error : Tool → JsonValue → string;
  now_isoformat : string → string;
  call_tool : bool → string → JsonValue → string → RemoteResult;
  completion_order : list Task → list Task;
  completion_order_perm : ∀ tool_tasks,
    completion_order tool_tasks ≡ₚ tool_tasks }.

(** What an observer of the agent's traffic sees: completion round-trips
    with their answer, and calls of a tool's [call]. *)
Inductive Event :=
| Completion (iteration : nat) (answer : Result ChatCompletion)
| Invocation (id function_name : string).

Definition is_completion (e : Event) : bool :=
  match e with Completion _ _ => true | Invocation _ _ => false end.

(** The agent together with the traffic seen so far. *)
Record World := {
  agent : Agent;
  events : list Event }.

Definition on_agent (f : Agent → Agent) (w : World) : World :=
  {| agent := f (agent w); events := events w |}.

Definition emit (e : Event) (w : World) : World :=
  {| agent := agent w; events := events w ++ [e] |}.

(* ===================================================================== *)
(** * Tools                                                               *)
(* ===================================================================== *)

(** The outcome of [await tool.call(self, **function_args)]: a returned
    text or an exception of class [Exception] with its [str]. *)
Inductive Outcome :=
| Returned (text : string)
| Raised (what : string).

(** [call(cls, agent)] of a built-in tool takes no keyword: only the empty
    dict fits. *)
Definition builtin_binds (function_args : JsonValue) : bool :=
  match function_args with
  | JObject [] => true
  | _ => false
  end.

(** [call(self, agent, **kwargs)] of [MCPTool] takes any dict that does not
    name [self] or [agent] again. *)
Definition mcp_binds (function_args : JsonValue) : bool :=
  match function_args with
  | JObject members =>
      forallb (λ kv, negb (String.eqb kv.1 "self" || String.eqb kv.1 "agent"))
              members
  | _ => false
  end.

(** A task that runs the body of [ClearContextTool.call]. *)
Definition resets_context (t : Task) : bool :=
  match task_tool t with
  | ClearContextTool => builtin_binds (task_args t)
  | _ => false
  end.

Section Run.
Context (env : Environment).

(** [tool.call(agent, **function_args)] for each kind of tool. *)
Definition call (t : Tool) (a : Agent) (function_args : JsonValue)
    (id : string) : Agent * Outcome :=
  match t with
  | GetDatetimeTool =>
      if builtin_binds function_args
      then (a, Returned (now_isoformat env id))
      else (a, Raised (type_error env t function_args))
  | GetTotalContextTokensTool =>
      if builtin_binds function_args
      then (a, Returned (str_int (_total_context_tokens a)))
      else (a, Raised (type_error env t function_args))
  | ClearContextTool =>
      if builtin_binds function_args
      then (reset_context a, Returned "Context cleared.")
      else (a, Raised (type_error env t function_args))
  | MCPTool remote_name is_persistent =>
      if mcp_binds function_args
      then match call_tool env is_persistent remote_name function_args id with
           | RemoteContent (text :: _) => (a, Returned text)
           | RemoteContent [] => (a, Returned "")
           | RemoteRaised what => (a, Raised what)
           end
      else (a, Raised (type_error env t function_args))
  end.

(** The text [_call_tool_safe] puts in the tool message. *)
Definition response_text (o : Outcome) : string :=
  match o with
  | Returned tool_response => tool_response
  | Raised e => "Error: " +:+ e
  end.

(** [Agent._call_tool_safe]: the [try] around the call, then the append.
    For a built-in tool the coroutine has no suspension point; for a
    remote tool nothing touches the agent before the answer is there.
    The whole of it is one step, taken when the coroutine completes. *)
Definition _call_tool_safe (w : World) (t : Task) : World :=
  let '(a, o) := call (task_tool t) (agent w) (task_args t) (task_call_id t) in
  {| agent := append (tool_message (task_call_id t) (task_name t)
                                   (response_text o)) a;
     events := events w ++ [Invocation (task_call_id t) (task_name t)] |}.

(** The coroutines of a round, run in the order they complete. *)
Definition run_tasks (w : World) (order : list Task) : World :=
  foldl _call_tool_safe w order.

(** [await asyncio.gather( *tool_tasks)]. *)
Definition gather (w : World) (tool_tasks : list Task) : World :=
  run_tasks w (completion_order env tool_tasks).

(** The tool message a task leaves when it runs on agent [a]. *)
Definition reply (a : Agent) (t : Task) : Message :=
  tool_message (task_call_id t) (task_name t)
    (response_text
       (call (task_tool t) a (task_args t) (task_call_id t)).2).

(* =================================================================== *)
(** * The send loop                                                     *)
(* =================================================================== *)

(** The body of [for tool_call in assistant_message.tool_calls].  The
    [except] clause names [json.JSONDecodeError] alone: whatever else
    [json.loads] raises leaves the loop and the method. *)
Definition schedule (st : Agent * list Task) (tool_call : ToolCall)
    : Result (Agent * list Task) :=
  let '(a, tool_tasks) := st in
  let function_name := fn_name (call_function tool_call) in
  match json_loads env (fn_arguments (call_function tool_call)) with
  | JSONDecodeError e =>
      Ok (append (tool_message (call_id tool_call) function_name
                               ("Error parsing arguments: " +:+ e)) a,
          tool_tasks)
  | Loaded function_args =>
      match _tools a !! function_name with
      | Some t =>
          Ok (a, tool_tasks ++ [ {| task_tool := t;
                                    task_args := function_args;
                                    task_call_id := call_id tool_call;
                                    task_name := function_name |} ])
      | None =>
          Ok (append (tool_message (call_id tool_call) function_name
                                   ("Unknown tool: " +:+ function_name)) a,
              tool_tasks)
      end
  | LoadsRaised class_name what =>
      Raise {| exc_class := class_name; exc_str := what |}
  end.

(** The [for] loop: it goes through the calls in order and stops at the
    first that raises, with the agent as the calls before left it. *)
Fixpoint schedule_loop (calls : list ToolCall) (st : Agent * list Task)
    : option Exception * (Agent * list Task) :=
  match calls with
  | [] => (None, st)
  | tool_call :: calls' =>
      match schedule st tool_call with
      | Ok st' => schedule_loop calls' st'
      | Raise e => (Some e, st)
      end
  end.

(** Truth value of [assistant_message.tool_calls]: the calls when the
    list is there and not empty. *)
Definition requested (m : ChatCompletionMessage) : list ToolCall :=
  match message_tool_calls m with
  | Some calls => calls
  | None => []
  end.

(** [assistant_message.content or ""]. *)
Definition content_or_empty (m : ChatCompletionMessage) : string :=
  match message_content m with
  | Some text => text
  | None => ""
  end.

Definition assistant_dict (m : ChatCompletionMessage) : Message :=
  {| role := assistant; content := content_or_empty m;
     tool_call_id := None; name := None;
     tool_calls := match requested m with
                   | [] => None
                   | calls => Some calls
                   end |}.

(** The tool-call part of one pass: the [for] loop, then the gather.
    When the loop raises, the coroutines created so far are never
    awaited. *)
Definition tool_round (w : World) (calls : list ToolCall)
    : option Exception * World :=
  let '(raised, (a, tool_tasks)) := schedule_loop calls (agent w, []) in
  let w := {| agent := a; events := events w |} in
  match raised with
  | Some e => (Some e, w)
  | None =>
      (None, match tool_tasks with
             | [] => w
             | _ => gather w tool_tasks
             end)
  end.

(** The [while iteration < self._max_tool_call_iterations] loop, by the
    number of passes still allowed. *)
Fixpoint send_loop (remaining iteration : nat)
    (assistant_message : option ChatCompletionMessage) (w : World)
    : Result (option ChatCompletionMessage) * World :=
  match remaining with
  | O => (Ok assistant_message, w)
  | S remaining' =>
      let answer := create env iteration (agent w) in
      let w := emit (Completion iteration answer) w in
      match answer with
      | Raise e => (Raise e, w)
      | Ok response =>
          let w := on_agent
                     (with_total_context_tokens (usage_total_tokens response))
                     w in
          let w := on_agent trim_context w in
          let m := choice_message response in
          let w := on_agent (append (assistant_dict m)) w in
          match requested m with
          | [] => (Ok (Some m), w)
          | calls =>
              match tool_round w calls with
              | (None, w) => send_loop remaining' (S iteration) (Some m) w
              | (Some e, w) => (Raise e, w)
              end
          end
      end
  end.

(** [Agent.send_message]. *)
Definition send_message (message : string) (w : World)
    : Result string * World :=
  let w := on_agent (append (user_message message)) w in
  let '(r, w') :=
    send_loop (Z.to_nat (_max_tool_call_iterations (agent w))) 0 None w in
  (match r with
   | Ok (Some m) => Ok (content_or_empty m)
   | Ok None => Ok ""
   | Raise e => Raise e
   end, w').

End Run.

(* ===================================================================== *)
(** * Vocabulary of the statements                                        *)
(* ===================================================================== *)

(** The agent a task hands to its append: reset when the task runs the
    body of [ClearContextTool.call], untouched otherwise. *)
Definition after_call (a : Agent) (t : Task) : Agent :=
  if resets_context t then reset_context a else a.

(** The event a task leaves when it runs. *)
Definition invocation (t : Task) : Event :=
  Invocation (task_call_id t) (task_name t).

(** The event the invocation of a requested call would leave. *)
Definition requested_invocation (tool_call : ToolCall) : Event :=
  Invocation (call_id tool_call) (fn_name (call_function tool_call)).

(** A requested call that the [for] loop answers itself: its arguments
    fail with [JSONDecodeError], or they parse and its name is not a key
    of the registry. *)
Definition refused (env : Environment) (a : Agent) (tool_call : ToolCall)
    : bool :=
  match json_loads env (fn_arguments (call_function tool_call)) with
  | JSONDecodeError _ => true
  | Loaded _ =>
      bool_decide (_tools a !! fn_name (call_function tool_call) = None)
  | LoadsRaised _ _ => false
  end.

(** [json.loads] raises nothing but [JSONDecodeError] on the argument
    text of a call. *)
Definition loads_quietly (env : Environment) (tool_call : ToolCall) : Prop :=
  ∀ class_name what,
    json_loads env (fn_arguments (call_function tool_call))
      ≠ LoadsRaised class_name what.

(** No message after position 0 is a system message. *)
Definition system_first (a : Agent) : Prop :=
  Forall (λ m, role m ≠ system) (tail (_context a)).

(** The tool messages of a log. *)
Definition tool_messages (l : list Message) : list Message :=
  filter (λ m, role m = tool) l.

(* ===================================================================== *)
(** * Histories of the conversation state                                 *)
(* ===================================================================== *)

(** The writes the class makes to the log and to the estimate, one
    constructor per site: the three kinds of message [send_message] and
    [_call_tool_safe] append, the overwrite of the estimate by the reported
    usage, and the three methods. *)
Inductive Operation :=
| AppendUser (message : string)
| AppendAssistant (m : ChatCompletionMessage)
| AppendTool (id function_name tool_response : string)
| ReportUsage (total_tokens : Z)
| TrimContext
| SetSystemMessage (message : string)
| ResetContext.

Definition apply_operation (a : Agent) (op : Operation) : Agent :=
  match op with
  | AppendUser message => append (user_message message) a
  | AppendAssistant m => append (assistant_dict m) a
  | AppendTool id function_name tool_response =>
      append (tool_message id function_name tool_response) a
  | ReportUsage total_tokens => with_total_context_tokens total_tokens a
  | TrimContext => trim_context a
  | SetSystemMessage message => set_system_message message a
  | ResetContext => reset_context a
  end.

Definition run_operations (a : Agent) (ops : list Operation) : Agent :=
  foldl apply_operation a ops.

(* ===================================================================== *)
(** * Concrete conversations                                              *)
(* ===================================================================== *)

Module Samples.

(** Three messages of 32 characters, estimated at 8 tokens each. *)
Definition oldest : Message := user_message "My favorite color is blue. Okay?".
Definition middle : Message :=
  {| role := assistant; content := "Noted: your favorite is blue. Ok";
     tool_call_id := None; name := None; tool_calls := None |}.
Definition newest : Message := user_message "Now, which color did I tell you?".

Definition ceiling_10 : AgentSettings :=
  {| max_tool_call_iterations := 5; max_context_tokens := 10 |}.

(** An agent whose log is [l] and whose estimate reads [n]. *)
Definition agent_with (settings : AgentSettings) (l : list Message) (n : Z)
    : Agent :=
  with_total_context_tokens n (with_context l (new_agent settings)).

Definition three_messages : Agent :=
  agent_with ceiling_10 [oldest; middle; newest] 24.

Definition three_after_system : Agent :=
  agent_with ceiling_10
             [system_message "Be brief."; oldest; middle; newest] 24.

(** [json.loads] on the texts the samples send: the empty object, the
    empty array, and text that is not JSON from its first character on. *)
Definition sample_json_loads (text : string) : JsonLoads :=
  if String.eqb text "{}" then Loaded (JObject [])
  else if String.eqb text "[]" then Loaded (JArray [])
  else JSONDecodeError "Expecting value: line 1 column 1 (char 0)".

(** A world whose endpoint follows [script], whose clock is stopped,
    whose remote server answers 42, where the only call that does not fit
    a signature is the one of [bad_clock] below, and where coroutines
    complete in the order they were handed to [gather]. *)
Definition scripted (script : nat → Agent → Result ChatCompletion)
    : Environment :=
  {| create := script;
     json_loads := sample_json_loads;
     type_error := λ _ _,
       "GetDatetimeTool.call() got an unexpected keyword argument 'zone'";
     now_isoformat := λ _, "2025-01-01T12:00:00";
     call_tool := λ _ _ _ _, RemoteContent ["42"];
     completion_order := λ tool_tasks, tool_tasks;
     completion_order_perm := λ tool_tasks, Permutation_refl tool_tasks |}.

Definition request (id function_name arguments : string) : ToolCall :=
  {| call_id := id;
     call_function := {| fn_name := function_name;
                         fn_arguments := arguments |} |}.

Definition answer (text : option string) (calls : option (list ToolCall))
    (total_tokens : Z) : Result ChatCompletion :=
  Ok {| choice_message := {| message_content := text;
                             message_tool_calls := calls |};
        usage_total_tokens := total_tokens |}.

(** A model that asks for the time at every round-trip. *)
Definition insistent : Environment :=
  scripted (λ iteration _,
    answer None (Some [request "call_0" "get_datetime" "{}"]) 7).

(** A model that first asks for a tool nobody registered, then answers. *)
Definition confused : Environment :=
  scripted (λ iteration _,
    match iteration with
    | O => answer None (Some [request "call_0" "frobnicate" "{}"]) 7
    | S _ => answer (Some "done") None 9
    end).

(** An endpoint that is down. *)
Definition unreachable : Environment :=
  scripted (λ _ _, Raise {| exc_class := "APIConnectionError";
                            exc_str := "Connection error." |}).

Definition fresh (settings : AgentSettings) : World :=
  {| agent := new_agent settings; events := [] |}.

Definition two_rounds : AgentSettings :=
  {| max_tool_call_iterations := 2; max_context_tokens := 4000 |}.

(** Scheduled invocations. *)
Definition read_tokens : Task :=
  {| task_tool := GetTotalContextTokensTool; task_args := JObject [];
     task_call_id := "call_a"; task_name := "get_total_context_tokens" |}.

Definition clear : Task :=
  {| task_tool := ClearContextTool; task_args := JObject [];
     task_call_id := "call_b"; task_name := "clear_context" |}.

Definition add_15_27 : Task :=
  {| task_tool := MCPTool "add" true;
     task_args := JObject [("a", JNumber "15"); ("b", JNumber "27")];
     task_call_id := "call_c"; task_name := "add" |}.


Definition quiet : Environment := scripted (λ _ _, answer (Some "ok") None 0).

Definition mid_turn : World :=
  {| agent := three_after_system; events := [] |}.

End Samples.

(* ===================================================================== *)
(** * More vocabulary                                                     *)
(* ===================================================================== *)

(** The sum of the estimates of a run of messages. *)
Definition estimates (l : list Message) : Z :=
  foldr (λ m total, (estimate m + total)%Z) 0%Z l.

(** The iteration number of a completion event. *)
Definition completion_number (e : Event) : option nat :=
  match e with
  | Completion iteration _ => Some iteration
  | Invocation _ _ => None
  end.

(** The registry holds the context-reset tool under no name. *)
Definition no_reset_tool (a : Agent) : Prop :=
  ∀ function_name, _tools a !! function_name ≠ Some ClearContextTool.

(** The three built-in classes. *)
Definition is_builtin (t : Tool) : bool :=
  match t with
  | GetDatetimeTool | GetTotalContextTokensTool | ClearContextTool => true
  | MCPTool _ _ => false
  end.

(** The keys by which a tool message answers a requested call. *)
Definition answers (m : Message) : option string * option string :=
  (tool_call_id m, name m).

Definition asked (tool_call : ToolCall) : option string * option string :=
  (Some (call_id tool_call), Some (fn_name (call_function tool_call))).

Definition answered (t : Task) : option string * option string :=
  (Some (task_call_id t), Some (task_name t)).

(** The tool message the [for] loop appends for a call it refuses, field
    by field. *)
Definition refusal_message (env : Environment) (tool_call : ToolCall)
    : Message :=
  {| role := tool;
     content :=
       match json_loads env (fn_arguments (call_function tool_call)) with
       | JSONDecodeError what => "Error parsing arguments: " +:+ what
       | _ => "Unknown tool: " +:+ fn_name (call_function tool_call)
       end;
     tool_call_id := Some (call_id tool_call);
     name := Some (fn_name (call_function tool_call));
     tool_calls := None |}.

(** A coroutine that reaches an await on the outside world: a call of a
    remote tool whose arguments fit.  The built-in tools await nothing,
    and a call that does not fit raises before any await. *)
Definition suspends (t : Task) : bool :=
  match task_tool t with
  | MCPTool _ _ => mcp_binds (task_args t)
  | _ => false
  end.

(** The orders in which [asyncio.gather] lets its coroutines complete:
    those that never suspend run to their end first, in the order they
    were listed; the others complete later, in any order. *)
Definition asyncio_order (tool_tasks order : list Task) : Prop :=
  ∃ later,
    order = filter (λ t : Task, ¬ suspends t) tool_tasks ++ later
    ∧ later ≡ₚ filter (λ t : Task, suspends t) tool_tasks.

(** Two environments whose clock, remote servers and error texts answer
    alike: they may differ in the order of completion. *)
Definition same_answers (env env' : Environment) : Prop :=
  type_error env = type_error env'
  ∧ now_isoformat env = now_isoformat env'
  ∧ call_tool env = call_tool env'.

(** The settings and the registry of an agent, which a turn only reads. *)
Definition fixed_part (a : Agent) : Z * Z * gmap string Tool :=
  (_max_tool_call_iterations a, _max_context_tokens a, _tools a).

(* ===================================================================== *)
(** * Tool servers                                                        *)
(* ===================================================================== *)

(** [StdioTransport(command, args, env, keep_alive)] and
    [StreamableHttpTransport(url, headers)]; a dict of strings is the list
    of its items. *)
Inductive Transport :=
| StdioTransport (command : string) (args : list string)
    (env : list (string * string)) (keep_alive : bool)
| StreamableHttpTransport (url : string) (headers : list (string * string)).

(** [Client(transport)]. *)
Inductive Client :=
| MkClient (transport : Transport).

(** An entry of [client.list_tools()]: [name], [description] and
    [inputSchema]. *)
Record ToolInfo := {
  info_name : string;
  info_description : string;
  info_inputSchema : JsonValue }.

(** What passes between the agent and its clients: [__aenter__] and
    [__aexit__] with the exception they raised, if any, and
    [list_tools] with its answer. *)
Inductive Traffic :=
| Entered (client : Client) (raised : option Exception)
| Exited (client : Client) (raised : option Exception)
| Listed (client : Client) (answer : Result (list ToolInfo)).

(** The servers behind the clients.  Each answer may depend on all the
    traffic so far.  [__aexit__] returns nothing true: it does not
    swallow the exception of the block it closes. *)
Record Servers := {
  aenter : list Traffic → Client → option Exception;
  aexit : list Traffic → Client → option Exception;
  list_tools : list Traffic → Client → Result (list ToolInfo) }.

(** The agent with the two lists [__init__] sets up beside the registry,
    and the traffic seen so far. *)
Record Host := {
  host_agent : Agent;
  _mcp_clients : list Client;
  _open_clients : list Client;
  traffic : list Traffic }.

(** [Agent.__init__], all fields. *)
Definition new_host (settings : AgentSettings) : Host :=
  {| host_agent := new_agent settings;
     _mcp_clients := [];
     _open_clients := [];
     traffic := [] |}.

Definition with_tools (tools : gmap string Tool) (a : Agent) : Agent :=
  {| _max_tool_call_iterations := _max_tool_call_iterations a;
     _max_context_tokens := _max_context_tokens a;
     _context := _context a;
     _total_context_tokens := _total_context_tokens a;
     _tools := tools |}.

Definition with_host_agent (a : Agent) (h : Host) : Host :=
  {| host_agent := a; _mcp_clients := _mcp_clients h;
     _open_clients := _open_clients h; traffic := traffic h |}.

Definition with_mcp_clients (l : list Client) (h : Host) : Host :=
  {| host_agent := host_agent h; _mcp_clients := l;
     _open_clients := _open_clients h; traffic := traffic h |}.

Definition with_open_clients (l : list Client) (h : Host) : Host :=
  {| host_agent := host_agent h; _mcp_clients := _mcp_clients h;
     _open_clients := l; traffic := traffic h |}.

Definition seen (t : Traffic) (h : Host) : Host :=
  {| host_agent := host_agent h; _mcp_clients := _mcp_clients h;
     _open_clients := _open_clients h; traffic := traffic h ++ [t] |}.

(** [self._tools[mcp_tool.name] = mcp_tool] with
    [mcp_tool = MCPTool(client, tool, keep_alive)]. *)
Definition register (keep_alive : bool) (a : Agent) (tool_info : ToolInfo)
    : Agent :=
  with_tools (<[info_name tool_info := MCPTool (info_name tool_info) keep_alive]>
                (_tools a)) a.

Section Connect.
Context (servers : Servers).

(** The inner [_load_tools] of both [add_mcp_..._server] methods: list
    the tools, on the open connection or inside an [async with client]
    of its own, then register them one by one. *)
Definition _load_tools (client : Client) (keep_alive : bool) (h : Host)
    : Result unit * Host :=
  if keep_alive then
    let listed := list_tools servers (traffic h) client in
    let h := seen (Listed client listed) h in
    match listed with
    | Raise e => (Raise e, h)
    | Ok tools =>
        (Ok (), with_host_agent (foldl (register keep_alive) (host_agent h) tools) h)
    end
  else
    let entered := aenter servers (traffic h) client in
    let h := seen (Entered client entered) h in
    match entered with
    | Some e => (Raise e, h)
    | None =>
        let listed := list_tools servers (traffic h) client in
        let h := seen (Listed client listed) h in
        let exited := aexit servers (traffic h) client in
        let h := seen (Exited client exited) h in
        match exited, listed with
        | Some e, _ => (Raise e, h)
        | None, Raise e => (Raise e, h)
        | None, Ok tools =>
            (Ok (),
             with_host_agent (foldl (register keep_alive) (host_agent h) tools) h)
        end
    end.

(** What [add_mcp_stdio_server] and [add_mcp_http_server] do once the
    transport is built. *)
Definition add_mcp_server (transport : Transport) (keep_alive : bool)
    (h : Host) : Result unit * Host :=
  let client := MkClient transport in
  let h := with_mcp_clients (_mcp_clients h ++ [client]) h in
  if keep_alive then
    let entered := aenter servers (traffic h) client in
    let h := seen (Entered client entered) h in
    match entered with
    | Some e => (Raise e, h)
    | None =>
        let h := with_open_clients (_open_clients h ++ [client]) h in
        _load_tools client keep_alive h
    end
  else _load_tools client keep_alive h.

(** [Agent.add_mcp_stdio_server]; [args or []] and [env or {}]. *)
Definition add_mcp_stdio_server (command : string)
    (args : option (list string)) (env : option (list (string * string)))
    (keep_alive : bool) (h : Host) : Result unit * Host :=
  add_mcp_server
    (StdioTransport command (default [] args) (default [] env) keep_alive)
    keep_alive h.

(** [Agent.add_mcp_http_server]; [headers or {}]. *)
Definition add_mcp_http_server (url : string)
    (headers : option (list (string * string))) (keep_alive : bool)
    (h : Host) : Result unit * Host :=
  add_mcp_server (StreamableHttpTransport url (default [] headers))
                 keep_alive h.

(** The [for client in self._open_clients] of [Agent.close]. *)
Fixpoint close_loop (clients : list Client) (h : Host) : Result unit * Host :=
  match clients with
  | [] => (Ok (), h)
  | client :: clients' =>
      let exited := aexit servers (traffic h) client in
      let h := seen (Exited client exited) h in
      match exited with
      | Some e => (Raise e, h)
      | None => close_loop clients' h
      end
  end.

(** [Agent.close]; [Agent.__aexit__] awaits it and nothing else. *)
Definition close (h : Host) : Result unit * Host :=
  match close_loop (_open_clients h) h with
  | (Ok _, h') => (Ok (), with_open_clients [] h')
  | (Raise e, h') => (Raise e, h')
  end.

(** Servers added one after the other, each with its transport and its
    [keep_alive] flag, whatever the attempts before returned. *)
Definition add_all (h : Host) (to_add : list (Transport * bool)) : Host :=
  foldl (λ h server, (add_mcp_server server.1 server.2 h).2) h to_add.

End Connect.

(** Connections entered with success, and connections left. *)
Definition entered_ok (t : Traffic) : bool :=
  match t with Entered _ None => true | _ => false end.

Definition exited (t : Traffic) : bool :=
  match t with Exited _ _ => true | _ => false end.

Definition entries (l : list Traffic) : nat := length (filter entered_ok l).
Definition exits (l : list Traffic) : nat := length (filter exited l).

(** Every connection entered and not yet left is in [_open_clients]. *)
Definition balanced (h : Host) : Prop :=
  entries (traffic h) = exits (traffic h) + length (_open_clients h).

(** The traffic of leaving each of [clients] without an exception. *)
Definition left_quietly (clients : list Client) : list Traffic :=
  (λ client, Exited client None) <$> clients.

Module Demo.

(** The three tools [mcp_server.py] declares. *)
Definition add_info : ToolInfo :=
  {| info_name := "add"; info_description := "add two numbers";
     info_inputSchema := JObject [] |}.
Definition multiply_info : ToolInfo :=
  {| info_name := "multiply"; info_description := "multiply two numbers";
     info_inputSchema := JObject [] |}.
Definition get_weather_info : ToolInfo :=
  {| info_name := "get_weather"; info_description := "weather of a city";
     info_inputSchema := JObject [] |}.

(** Servers that always connect and list these three tools. *)
Definition calculator : Servers :=
  {| aenter := λ _ _, None;
     aexit := λ _ _, None;
     list_tools := λ _ _, Ok [add_info; multiply_info; get_weather_info] |}.

Definition connection_refused : Exception :=
  {| exc_class := "RuntimeError"; exc_str := "Client failed to connect" |}.

(** Servers that connect and then fail to list. *)
Definition mute : Servers :=
  {| aenter := λ _ _, None;
     aexit := λ _ _, None;
     list_tools := λ _ _, Raise connection_refused |}.

(** Servers whose connections do not close. *)
Definition stuck : Servers :=
  {| aenter := λ _ _, None;
     aexit := λ _ _, Some connection_refused;
     list_tools := λ _ _, Ok [add_info] |}.

Definition clear_context_info : ToolInfo :=
  {| info_name := "clear_context"; info_description := "forget a session";
     info_inputSchema := JObject [] |}.

(** Servers that list a tool with the name of a built-in one. *)
Definition shadowing : Servers :=
  {| aenter := λ _ _, None;
     aexit := λ _ _, None;
     list_tools := λ _ _, Ok [clear_context_info] |}.

(** The transport of [main.py]. *)
Definition python_server : Transport :=
  StdioTransport "python" ["mcp_server.py"; "--server"] [] true.

Definition no_rounds : AgentSettings :=
  {| max_tool_call_iterations := 0; max_context_tokens := 4000 |}.

(** A model that answers at once. *)
Definition plain : Environment :=
  Samples.scripted (λ _ _, Samples.answer (Some "Blue.") None 12).

Definition told_you : World :=
  {| agent := Samples.agent_with default_settings
                [system_message "Be brief."; Samples.oldest; Samples.middle] 24;
     events := [] |}.

(** A hundred thousand opening brackets: text on which [json.loads] gives
    up with a [RecursionError], which is no [JSONDecodeError]. *)
Definition brackets : string :=
  Eval vm_compute in
    fold_right String.append EmptyString (replicate 1000 "[").

Definition deep : string :=
  fold_right String.append EmptyString (replicate 100 brackets).

Definition too_deep : string :=
  "maximum recursion depth exceeded while decoding a JSON array from a unicode string".

Definition deep_json_loads (text : string) : JsonLoads :=
  if String.eqb text deep then LoadsRaised "RecursionError" too_deep
  else Samples.sample_json_loads text.

(** A model that asks at every round-trip for the time with such
    arguments, and then for the estimate. *)
Definition nesting : Environment :=
  {| create := λ _ _,
       Samples.answer None
         (Some [Samples.request "call_0" "get_datetime" deep;
                Samples.request "call_1" "get_total_context_tokens" "{}"]) 7;
     json_loads := deep_json_loads;
     type_error := λ _ _, "";
     now_isoformat := λ _, "2025-01-01T12:00:00";
     call_tool := λ _ _ _ _, RemoteContent ["42"];
     completion_order := λ tool_tasks, tool_tasks;
     completion_order_perm := λ tool_tasks, Permutation_refl tool_tasks |}.

(** A model that says something and asks for the time at every
    round-trip. *)
Definition chatty : Environment :=
  Samples.scripted (λ _ _,
    Samples.answer (Some "Let me check.")
      (Some [Samples.request "call_0" "get_datetime" "{}"]) 7).

(** The world of [Samples.quiet] with the suspended coroutines completing
    in the reverse of the order they were listed in. *)
Definition backwards : Environment :=
  {| create := create Samples.quiet;
     json_loads := json_loads Samples.quiet;
     type_error := type_error Samples.quiet;
     now_isoformat := now_isoformat Samples.quiet;
     call_tool := call_tool Samples.quiet;
     completion_order := λ tool_tasks,
       filter (λ t : Task, ¬ suspends t) tool_tasks
       ++ reverse (filter (λ t : Task, suspends t) tool_tasks);
     completion_order_perm := λ tool_tasks,
       Permutation_trans
         (Permutation_app_head _ (reverse_Permutation _))
         (Permutation_trans
            (Permutation_app_comm _ _)
            (filter_app_complement (λ t : Task, suspends t) tool_tasks)) |}.

Definition multiply_2_3 : Task :=
  {| task_tool := MCPTool "multiply" true;
     task_args := JObject [("a", JNumber "2"); ("b", JNumber "3")];
     task_call_id := "call_f"; task_name := "multiply" |}.

Definition clear_with_arguments : Task :=
  {| task_tool := ClearContextTool;
     task_args := JObject [("zone", JString "UTC")];
     task_call_id := "call_e"; task_name := "clear_context" |}.

(** An agent whose registry lost the context-reset tool. *)
Definition without_reset : World :=
  {| agent := with_tools (delete "clear_context" (_tools (agent told_you)))
                         (agent told_you);
     events := [] |}.

End Demo.

(* ===================================================================== *)
(** * Trimming                                                            *)
(* ===================================================================== *)

Section Trimming.
Implicit Types (a : Agent) (m : Message) (l : list Message).

(** A pass that goes on removes the message at position 1, which is not
    a system message, and charges its estimate. *)
Lemma trim_step_Some a a' :
  trim_step a = Some a' →
  ∃ m0 m1 rest,
    _context a = m0 :: m1 :: rest
    ∧ role m1 ≠ system
    ∧ (_total_context_tokens a > _max_context_tokens a)%Z
    ∧ a' = with_total_context_tokens
             (_total_context_tokens a - estimate m1)%Z
             (with_context (m0 :: rest) a).
Proof.
  unfold trim_step. intros H.
  destruct (bool_decide (_ > _)%Z) eqn:Htok; simpl in H; [|done].
  destruct (bool_decide (1 < _)) eqn:Hlen; simpl in H; [|done].
  destruct (_context a) as [|m0 [|m1 rest]] eqn:Hctx; simpl in H; try done.
  unfold is_system in H. case_bool_decide as Hrole; [done|].
  apply bool_decide_eq_true in Htok.
  injection H as <-. by exists m0, m1, rest.
Qed.

Lemma trim_loop_bound fuel a :
  length (_context a) ≤ fuel → trim_step (trim_loop fuel a) = None.
Proof.
  revert a. induction fuel as [|fuel IH]; intros a Hlen; simpl.
  - unfold trim_step. destruct (_context a); simpl in *; [|lia].
    by rewrite andb_false_r.
  - destruct (trim_step a) as [a'|] eqn:Hstep; [|done].
    apply IH. apply trim_step_Some in Hstep as (m0 & m1 & rest & Hctx & _ & _ & ->).
    rewrite Hctx in Hlen. simpl in *. lia.
Qed.

(** The loop of [trim_context] has left by itself: no further pass is
    due in the state it returns. *)
Lemma trim_context_exits a : trim_step (trim_context a) = None.
Proof. by apply trim_loop_bound. Qed.

Lemma trim_loop_head fuel a :
  head (_context (trim_loop fuel a)) = head (_context a).
Proof.
  revert a. induction fuel as [|fuel IH]; intros a; simpl; [done|].
  destruct (trim_step a) as [a'|] eqn:Hstep; [|done].
  rewrite IH.
  apply trim_step_Some in Hstep as (m0 & m1 & rest & Hctx & _ & _ & ->).
  by rewrite Hctx.
Qed.

Lemma trim_loop_tail fuel a :
  Forall (λ m, role m ≠ system) (tail (_context a)) →
  Forall (λ m, role m ≠ system) (tail (_context (trim_loop fuel a))).
Proof.
  revert a. induction fuel as [|fuel IH]; intros a Ha; simpl; [done|].
  destruct (trim_step a) as [a'|] eqn:Hstep; [|done].
  apply IH.
  apply trim_step_Some in Hstep as (m0 & m1 & rest & Hctx & _ & _ & ->).
  rewrite Hctx in Ha. simpl in *. by inversion Ha.
Qed.

Lemma trim_loop_tools fuel a : _tools (trim_loop fuel a) = _tools a.
Proof.
  revert a. induction fuel as [|fuel IH]; intros a; simpl; [done|].
  destruct (trim_step a) as [a'|] eqn:Hstep; [|done].
  rewrite IH.
  by apply trim_step_Some in Hstep as (m0 & m1 & rest & _ & _ & _ & ->).
Qed.

Lemma trim_loop_max_iterations fuel a :
  _max_tool_call_iterations (trim_loop fuel a) = _max_tool_call_iterations a.
Proof.
  revert a. induction fuel as [|fuel IH]; intros a; simpl; [done|].
  destruct (trim_step a) as [a'|] eqn:Hstep; [|done].
  rewrite IH.
  by apply trim_step_Some in Hstep as (m0 & m1 & rest & _ & _ & _ & ->).
Qed.

End Trimming.

(** With a system message in front, the scenario of the three messages of
    size 8 under a ceiling of 10 goes as oldest-first eviction says: the two
    oldest go, the newest stays, the estimate ends at 8. *)
Lemma trim_three_after_system :
  _context (trim_context Samples.three_after_system)
    = [system_message "Be brief."; Samples.newest]
  ∧ _total_context_tokens (trim_context Samples.three_after_system) = 8%Z.
Proof. split; reflexivity. Qed.

(** C1, evaluated on the code.  The log holds exactly the three non-system
    messages (no system message was set), each of 32 characters, the
    estimate reads 24 and the ceiling is 10.  [trim_context] removes the
    message at position 1 twice: the middle and the newest message go, the
    oldest one stays, and the estimate ends at 8.  Oldest-first eviction
    would have kept the newest message. *)
Theorem trim_three_messages_keeps_oldest :
  Forall (λ m, role m ≠ system ∧ estimate m = 8%Z)
         (_context Samples.three_messages)
  ∧ _total_context_tokens Samples.three_messages = 24%Z
  ∧ _max_context_tokens Samples.three_messages = 10%Z
  ∧ _context (trim_context Samples.three_messages) = [Samples.oldest]
  ∧ _total_context_tokens (trim_context Samples.three_messages) = 8%Z
  ∧ Samples.newest ∉ _context (trim_context Samples.three_messages).
Proof.
  repeat split; try reflexivity.
  - repeat constructor; done.
  - intros Hin. apply list_elem_of_singleton in Hin. discriminate Hin.
Qed.

(* ===================================================================== *)
(** * The system message                                                  *)
(* ===================================================================== *)

Section SystemMessage.
Implicit Types (a : Agent) (m : Message) (l : list Message).

Lemma tail_snoc_not_system l m :
  role m ≠ system →
  Forall (λ m, role m ≠ system) (tail l) →
  Forall (λ m, role m ≠ system) (tail (l ++ [m])).
Proof.
  intros Hm Hl. destruct l as [|m0 l]; simpl in *; [constructor|].
  apply Forall_app. split; [done|]. by constructor.
Qed.

Lemma set_system_message_tail message a :
  Forall (λ m, role m ≠ system) (tail (_context a)) →
  Forall (λ m, role m ≠ system)
         (tail (_context (set_system_message message a))).
Proof.
  unfold set_system_message. intros Ha.
  destruct (_context a) as [|m rest] eqn:Hctx; simpl; [constructor|].
  unfold is_system. case_bool_decide as Hrole; simpl; [done|].
  by constructor.
Qed.

(** Every write of the class keeps system messages out of the positions
    after the first. *)
Lemma apply_operation_tail a op :
  Forall (λ m, role m ≠ system) (tail (_context a)) →
  Forall (λ m, role m ≠ system) (tail (_context (apply_operation a op))).
Proof.
  intros Ha. destruct op; simpl.
  - by apply tail_snoc_not_system.
  - by apply tail_snoc_not_system.
  - by apply tail_snoc_not_system.
  - done.
  - by apply trim_loop_tail.
  - by apply set_system_message_tail.
  - constructor.
Qed.

Lemma run_operations_tail a ops :
  Forall (λ m, role m ≠ system) (tail (_context a)) →
  Forall (λ m, role m ≠ system) (tail (_context (run_operations a ops))).
Proof.
  unfold run_operations. revert a.
  induction ops as [|op ops IH]; intros a Ha; simpl; [done|].
  by apply IH, apply_operation_tail.
Qed.

Lemma at_most_one_system l :
  Forall (λ m, role m ≠ system) (tail l) →
  length (filter (λ m, role m = system) l) ≤ 1.
Proof.
  destruct l as [|m0 l]; simpl; intros Hl; [lia|].
  assert (filter (λ m, role m = system) l = []) as Hnil.
  { induction Hl as [|m l Hm Hl IH]; [done|].
    by rewrite filter_cons_False. }
  destruct (decide (role m0 = system)).
  - rewrite filter_cons_True by done. rewrite Hnil. simpl. lia.
  - rewrite filter_cons_False by done. rewrite Hnil. simpl. lia.
Qed.

End SystemMessage.

(** C2.  Start from the empty log of a new agent and apply any sequence of
    the writes the class makes: appends of user, assistant and tool
    messages, overwrites of the estimate, trims, resets and
    set-system-message.  The log then holds at most one system message, no
    message after position 0 is a system message, and a further trim
    leaves position 0 as it is. *)
Theorem system_message_stays_first (settings : AgentSettings)
    (ops : list Operation) :
  let a := run_operations (new_agent settings) ops in
  length (filter (λ m, role m = system) (_context a)) ≤ 1
  ∧ Forall (λ m, role m ≠ system) (tail (_context a))
  ∧ head (_context (trim_context a)) = head (_context a).
Proof.
  intros a.
  assert (Forall (λ m, role m ≠ system) (tail (_context a))) as Htail.
  { apply run_operations_tail. constructor. }
  split; [by apply at_most_one_system|].
  split; [done|]. apply trim_loop_head.
Qed.

(* ===================================================================== *)
(** * Resetting                                                           *)
(* ===================================================================== *)

Section Round.
Context (env : Environment).
Implicit Types (a b : Agent) (w : World) (t : Task) (order : list Task).

Lemma call_agent t a :
  (call env (task_tool t) a (task_args t) (task_call_id t)).1
    = after_call a t.
Proof.
  unfold after_call, resets_context, call.
  destruct (task_tool t); repeat case_match; done.
Qed.

(** [_call_tool_safe], unfolded into the reply and the agent it is
    appended to. *)
Lemma _call_tool_safe_eq w t :
  _call_tool_safe env w t
    = {| agent := append (reply env (agent w) t) (after_call (agent w) t);
         events := events w ++ [invocation t] |}.
Proof.
  unfold _call_tool_safe, reply. rewrite <- call_agent.
  by destruct (call env _ _ _ _).
Qed.

(** A reply depends on the agent through the estimate only. *)
Lemma reply_estimate a b t :
  _total_context_tokens a = _total_context_tokens b →
  reply env a t = reply env b t.
Proof.
  intros Heq. unfold reply, call.
  destruct (task_tool t); repeat case_match; simplify_eq/=; try done.
  by rewrite Heq.
Qed.


Lemma run_tasks_snoc w order t :
  run_tasks env w (order ++ [t]) = _call_tool_safe env (run_tasks env w order) t.
Proof. apply foldl_snoc. Qed.

Lemma run_tasks_app w order1 order2 :
  run_tasks env w (order1 ++ order2)
    = run_tasks env (run_tasks env w order1) order2.
Proof. apply foldl_app. Qed.

(** Every coroutine of the round runs, whatever the others did. *)
Lemma run_tasks_events w order :
  events (run_tasks env w order) = events w ++ (invocation <$> order).
Proof.
  unfold run_tasks. revert w.
  induction order as [|t order IH]; intros w; simpl.
  - by rewrite app_nil_r.
  - rewrite IH, _call_tool_safe_eq. simpl. by rewrite <- app_assoc.
Qed.

(** Without a reset the round only appends, one reply per task, and the
    replies are those the tasks would give on the agent of the start. *)
Lemma run_tasks_no_reset w order :
  Forall (λ t, resets_context t = false) order →
  agent (run_tasks env w order)
    = with_context (_context (agent w) ++ (reply env (agent w) <$> order))
                   (agent w).
Proof.
  intros Hno. unfold run_tasks. revert w.
  induction Hno as [|t order Ht Hno IH]; intros w; simpl.
  - rewrite app_nil_r. by destruct (agent w).
  - rewrite IH, _call_tool_safe_eq. simpl.
    unfold after_call. rewrite Ht. unfold append, with_context. simpl.
    f_equal. rewrite <- app_assoc. simpl. do 2 f_equal.
    apply list_fmap_ext. intros _ t' _. by apply reply_estimate.
Qed.



(** At any moment of a round, either nothing of the conversation state
    was cleared, or the log and the estimate both were and the log holds
    nothing but tool replies given since. *)
Lemma run_tasks_observed w done :
  let b := agent (run_tasks env w done) in
  (_total_context_tokens b = _total_context_tokens (agent w)
   ∧ _context (agent w) `prefix_of` _context b)
  ∨ (_total_context_tokens b = 0%Z
     ∧ Forall (λ m, role m = tool) (_context b)
     ∧ length (_context b) ≤ length done).
Proof.
  induction done as [|t done IH] using rev_ind; simpl.
  - left. done.
  - rewrite run_tasks_snoc, _call_tool_safe_eq. simpl.
    unfold after_call. destruct (resets_context t) eqn:Ht; simpl.
    + right. rewrite length_app. simpl. repeat split; [|lia].
      by repeat constructor.
    + destruct IH as [[Htok Hpre]|(Htok & Htool & Hlen)]; [left|right].
      * split; [done|]. by apply prefix_app_r.
      * rewrite !length_app. simpl. repeat split; [done| |lia].
        apply Forall_app. split; [done|]. by repeat constructor.
Qed.

End Round.

(** C7.  After [reset_context] the log has length zero and the estimate is
    zero, whatever the state was, and nothing else of the agent changed; a
    read of the estimate through the introspection tool then answers 0.
    The method has no suspension point, so it is one step of the schedule:
    at every moment of a round, after any number of completed coroutines,
    either the estimate is untouched and the log of the start is still
    there, or the estimate is zero and the log holds only the tool replies
    given since the reset.  A state with one of the two cleared and the
    other not is never seen. *)
Theorem reset_context_clears_both (a : Agent) :
  length (_context (reset_context a)) = 0
  ∧ _total_context_tokens (reset_context a) = 0%Z
  ∧ _tools (reset_context a) = _tools a
  ∧ _max_context_tokens (reset_context a) = _max_context_tokens a
  ∧ _max_tool_call_iterations (reset_context a) = _max_tool_call_iterations a
  ∧ (∀ env id,
       call env GetTotalContextTokensTool (reset_context a) (JObject []) id
         = (reset_context a, Returned "0"))
  ∧ (∀ env events_so_far done,
       let b := agent (run_tasks env {| agent := a; events := events_so_far |}
                                 done) in
       (_total_context_tokens b = _total_context_tokens a
        ∧ _context a `prefix_of` _context b)
       ∨ (_total_context_tokens b = 0%Z
          ∧ Forall (λ m, role m = tool) (_context b)
          ∧ length (_context b) ≤ length done)).
Proof.
  repeat split; try done.
  intros env events_so_far done.
  apply (run_tasks_observed env {| agent := a; events := events_so_far |}).
Qed.

(* ===================================================================== *)
(** * Setting the system message                                          *)
(* ===================================================================== *)

(** C9.  After [set_system_message message] the message at position 0 has
    role system and content [message].  When the log began with a system
    message, that message has its content replaced and keeps its place and
    its other keys; otherwise a new system message is put in front.  The
    other messages are the same, in the same order, and the estimate and
    the registry are untouched. *)
Theorem set_system_message_first (message : string) (a : Agent) :
  let a' := set_system_message message a in
  (∃ m, head (_context a') = Some m ∧ role m = system ∧ content m = message)
  ∧ (∀ m rest, _context a = m :: rest → role m = system →
       _context a' = set_content message m :: rest)
  ∧ ((∀ m, head (_context a) = Some m → role m ≠ system) →
       _context a' = system_message message :: _context a)
  ∧ _total_context_tokens a' = _total_context_tokens a
  ∧ _tools a' = _tools a.
Proof.
  unfold set_system_message, is_system.
  destruct (_context a) as [|m0 rest] eqn:Hctx; simpl.
  - repeat split; try done. by eexists.
  - case_bool_decide as Hrole; simpl.
    + repeat split; try done.
      * by eexists.
      * by intros m rest' [= -> ->] _.
      * intros Hno. by destruct (Hno m0).
    + repeat split; try done.
      * by eexists.
      * by intros m rest' [= -> ->] ?.
Qed.

Lemma set_system_message_first_witness :
  _context (set_system_message "Be kind." Samples.three_after_system)
    = [system_message "Be kind."; Samples.oldest; Samples.middle;
       Samples.newest]
  ∧ _context (set_system_message "Be kind." Samples.three_messages)
    = [system_message "Be kind."; Samples.oldest; Samples.middle;
       Samples.newest].
Proof.
  split.
  - exact (proj1 (proj2 (set_system_message_first "Be kind."
                           Samples.three_after_system))
                 (system_message "Be brief.")
                 [Samples.oldest; Samples.middle; Samples.newest]
                 eq_refl eq_refl).
  - apply (proj1 (proj2 (proj2 (set_system_message_first "Be kind."
                                  Samples.three_messages)))).
    intros m [= <-]. discriminate.
Defined.

(* ===================================================================== *)
(** * Tool-call rounds                                                    *)
(* ===================================================================== *)

Section Scheduling.
Context (env : Environment).
Implicit Types (a b : Agent) (w : World) (t : Task).
Implicit Types (tool_call : ToolCall) (calls : list ToolCall).

Lemma refused_partition {B} (f : ToolCall → B) a calls :
  (f <$> filter (λ tool_call, refused env a tool_call = true) calls)
  ++ (f <$> filter (λ tool_call, refused env a tool_call = false) calls)
  ≡ₚ f <$> calls.
Proof.
  induction calls as [|tool_call calls IH]; [done|].
  destruct (refused env a tool_call) eqn:Href.
  - rewrite filter_cons_True by done.
    rewrite filter_cons_False by (by rewrite Href).
    rewrite !fmap_cons. simpl. by rewrite IH.
  - rewrite filter_cons_False by (by rewrite Href).
    rewrite filter_cons_True by done.
    rewrite !fmap_cons, <- Permutation_middle. by rewrite IH.
Qed.

(** The [for] loop of a round.  It goes through the calls [done] and stops
    before the first call on whose arguments [json.loads] raises something
    else than [JSONDecodeError], which it lets through.  The agent gains
    the messages of the refused calls among [done], in order, and nothing
    else of it changes; the coroutines created are those of the other
    calls among [done], in order, each with the tool the registry holds
    under its name. *)
Lemma schedule_loop_log calls a tool_tasks :
  ∃ raised done rest new,
    schedule_loop env calls (a, tool_tasks)
      = (raised,
         (with_context
            (_context a
             ++ (refusal_message env
                   <$> filter (λ tool_call, refused env a tool_call = true)
                              done))
            a,
          tool_tasks ++ new))
    ∧ calls = done ++ rest
    ∧ Forall (loads_quietly env) done
    ∧ match raised with
      | None => rest = []
      | Some e =>
          ∃ tool_call rest',
            rest = tool_call :: rest'
            ∧ json_loads env (fn_arguments (call_function tool_call))
              = LoadsRaised (exc_class e) (exc_str e)
      end
    ∧ invocation <$> new
      = requested_invocation
          <$> filter (λ tool_call, refused env a tool_call = false) done
    ∧ answered <$> new
      = asked <$> filter (λ tool_call, refused env a tool_call = false) done
    ∧ Forall (λ t, _tools a !! task_name t = Some (task_tool t)) new.
Proof.
  revert a tool_tasks.
  induction calls as [|tool_call calls IH]; intros a tool_tasks.
  - exists None, [], [], []. simpl. rewrite !app_nil_r.
    split_and!; try done. by destruct a.
  - cbn [schedule_loop]. unfold schedule.
    destruct (json_loads env (fn_arguments (call_function tool_call)))
      as [what|function_args|class_name what] eqn:Hloads.
    + destruct (IH (append (tool_message (call_id tool_call)
                              (fn_name (call_function tool_call))
                              ("Error parsing arguments: " +:+ what)) a)
                   tool_tasks)
        as (raised & done & rest & new & -> & -> & Hq & Hr & Hi & Ha & Ht).
      exists raised, (tool_call :: done), rest, new.
      rewrite filter_cons_True by (unfold refused; by rewrite Hloads).
      rewrite filter_cons_False
        by (unfold refused; by rewrite Hloads).
      split_and!; try done.
      * unfold append, with_context, refusal_message. simpl.
        rewrite Hloads, <- app_assoc. done.
      * constructor; [|done]. intros c s. by rewrite Hloads.
    + destruct (_tools a !! fn_name (call_function tool_call))
        as [t|] eqn:Hlook.
      * destruct (IH a (tool_tasks ++ [ {|
                     task_tool := t; task_args := function_args;
                     task_call_id := call_id tool_call;
                     task_name := fn_name (call_function tool_call) |} ]))
          as (raised & done & rest & new & -> & -> & Hq & Hr & Hi & Ha & Ht).
        eexists raised, (tool_call :: done), rest, (_ :: new).
        rewrite filter_cons_False
          by (unfold refused; rewrite Hloads, Hlook; by case_bool_decide).
        rewrite filter_cons_True
          by (unfold refused; rewrite Hloads, Hlook;
              by rewrite bool_decide_eq_false).
        rewrite <- app_assoc. split_and!; try done.
        -- constructor; [|done]. intros c s. by rewrite Hloads.
        -- rewrite !fmap_cons, Hi. done.
        -- rewrite !fmap_cons, Ha. done.
        -- by constructor.
      * destruct (IH (append (tool_message (call_id tool_call)
                              (fn_name (call_function tool_call))
                              ("Unknown tool: "
                               +:+ fn_name (call_function tool_call))) a)
                   tool_tasks)
          as (raised & done & rest & new & -> & -> & Hq & Hr & Hi & Ha & Ht).
        exists raised, (tool_call :: done), rest, new.
        rewrite filter_cons_True
          by (unfold refused; rewrite Hloads, Hlook;
              by rewrite bool_decide_eq_true).
        rewrite filter_cons_False
          by (unfold refused; rewrite Hloads, Hlook; by case_bool_decide).
        split_and!; try done.
        -- unfold append, with_context, refusal_message. simpl.
           rewrite Hloads, <- app_assoc. done.
        -- constructor; [|done]. intros c s. by rewrite Hloads.
    + exists (Some {| exc_class := class_name; exc_str := what |}),
             [], (tool_call :: calls), [].
      simpl. rewrite !app_nil_r. split_and!; try done.
      * by destruct a.
      * by exists tool_call, calls.
Qed.

End Scheduling.

Section ToolRound.
Context (env : Environment).
Implicit Types (a b : Agent) (w : World) (t : Task).
Implicit Types (tool_call : ToolCall) (calls : list ToolCall).

(** A round in full: the [for] loop, and the gather when the loop raised
    nothing and created a coroutine. *)
Lemma tool_round_eq w calls :
  ∃ raised done rest new,
    tool_round env w calls
      = (raised,
         let w1 :=
           {| agent :=
                with_context
                  (_context (agent w)
                   ++ (refusal_message env
                         <$> filter (λ tool_call,
                                       refused env (agent w) tool_call = true)
                                    done))
                  (agent w);
              events := events w |} in
         match raised, new with
         | None, _ :: _ => gather env w1 new
         | _, _ => w1
         end)
    ∧ calls = done ++ rest
    ∧ Forall (loads_quietly env) done
    ∧ match raised with
      | None => rest = []
      | Some e =>
          ∃ tool_call rest',
            rest = tool_call :: rest'
            ∧ json_loads env (fn_arguments (call_function tool_call))
              = LoadsRaised (exc_class e) (exc_str e)
      end
    ∧ invocation <$> new
      = requested_invocation
          <$> filter (λ tool_call, refused env (agent w) tool_call = false)
                     done
    ∧ answered <$> new
      = asked <$> filter (λ tool_call, refused env (agent w) tool_call = false)
                         done
    ∧ Forall (λ t, _tools (agent w) !! task_name t = Some (task_tool t)) new.
Proof.
  unfold tool_round.
  destruct (schedule_loop_log env calls (agent w) [])
    as (raised & done & rest & new & -> & Hrest).
  exists raised, done, rest, new. split; [|exact Hrest].
  simpl. by destruct raised, new.
Qed.

(** What a round raises, [json.loads] raised on the arguments of one of
    its calls. *)
Lemma tool_round_raise w calls e :
  (tool_round env w calls).1 = Some e →
  ∃ tool_call,
    tool_call ∈ calls
    ∧ json_loads env (fn_arguments (call_function tool_call))
      = LoadsRaised (exc_class e) (exc_str e).
Proof.
  destruct (tool_round_eq w calls)
    as (raised & done & rest & new & -> & -> & _ & Hr & _).
  simpl. intros ->. destruct Hr as (tool_call & rest' & -> & Hloads).
  exists tool_call. split; [|done].
  apply elem_of_app. right. by left.
Qed.

Lemma tool_round_quiet w calls :
  Forall (loads_quietly env) calls → (tool_round env w calls).1 = None.
Proof.
  intros Hq.
  destruct ((tool_round env w calls).1) as [e|] eqn:Hround; [|done].
  apply tool_round_raise in Hround as (tool_call & Hin & Hloads).
  rewrite Forall_forall in Hq. by destruct (Hq _ Hin _ _ Hloads).
Qed.

(** The events of a round are invocations, in the order the coroutines
    completed: those of the accepted calls when the loop raised nothing,
    and none when it raised. *)
Lemma tool_round_events w calls :
  ∃ order,
    events (tool_round env w calls).2 = events w ++ (invocation <$> order)
    ∧ match (tool_round env w calls).1 with
      | None =>
          invocation <$> order
            ≡ₚ requested_invocation
                 <$> filter (λ tool_call,
                               refused env (agent w) tool_call = false)
                            calls
      | Some _ => order = []
      end.
Proof.
  destruct (tool_round_eq w calls)
    as (raised & done & rest & new & -> & -> & _ & Hr & Hi & _).
  simpl. destruct raised as [e|].
  - exists []. simpl. by rewrite app_nil_r.
  - subst rest. rewrite app_nil_r. destruct new as [|t new].
    + exists []. simpl. rewrite app_nil_r. split; [done|].
      by rewrite <- Hi.
    + exists (completion_order env (t :: new)). unfold gather.
      rewrite run_tasks_events. simpl. split; [done|].
      rewrite <- Hi. by rewrite completion_order_perm.
Qed.

Lemma filter_invocations (order : list Task) :
  filter is_completion (invocation <$> order) = [].
Proof.
  induction order as [|t order IH]; [done|].
  rewrite fmap_cons, filter_cons_False; [done|]. simpl. by intros [].
Qed.

Lemma tool_round_completions w calls :
  filter is_completion (events (tool_round env w calls).2)
    = filter is_completion (events w).
Proof.
  destruct (tool_round_events w calls) as (order & -> & _).
  by rewrite filter_app, filter_invocations, app_nil_r.
Qed.

End ToolRound.

Section SendLoop.
Context (env : Environment).
Implicit Types (w : World) (m : option ChatCompletionMessage).

(** What the loop raises was raised by the completion endpoint, or by
    [json.loads] on the arguments of a call the endpoint asked for. *)
Lemma send_loop_raise remaining iteration m w e w' :
  send_loop env remaining iteration m w = (Raise e, w') →
  (∃ i a, create env i a = Raise e)
  ∨ (∃ i a r tool_call,
       create env i a = Ok r
       ∧ tool_call ∈ requested (choice_message r)
       ∧ json_loads env (fn_arguments (call_function tool_call))
         = LoadsRaised (exc_class e) (exc_str e)).
Proof.
  revert iteration m w.
  induction remaining as [|remaining IH]; intros iteration m w; simpl.
  - done.
  - destruct (create env iteration (agent w)) as [r|e0] eqn:Hcreate.
    + destruct (requested (choice_message r)) as [|c calls] eqn:Hreq; [done|].
      match goal with
      | |- context [tool_round env ?w1 ?cs] =>
          pose proof (tool_round_raise env w1 cs) as Hround;
          destruct (tool_round env w1 cs) as [[e1|] w2]
      end.
      * intros [= -> _]. destruct (Hround e eq_refl) as (tool_call & Hin & Hl).
        right. exists iteration, (agent w), r, tool_call.
        by rewrite Hreq.
      * apply IH.
    + intros [= -> _]. left. eauto.
Qed.

(** When the endpoint always answers and [json.loads] raises nothing but
    [JSONDecodeError] on what it asks for, the loop returns. *)
Lemma send_loop_returns remaining iteration m w :
  (∀ i a, ∃ r, create env i a = Ok r
               ∧ Forall (loads_quietly env) (requested (choice_message r))) →
  ∃ m' w', send_loop env remaining iteration m w = (Ok m', w').
Proof.
  intros Hup.
  destruct (send_loop env remaining iteration m w) as [[m'|e] w'] eqn:Hloop.
  - eauto.
  - apply send_loop_raise in Hloop
      as [(i & a & Hraise)|(i & a & r & tool_call & Hr & Hin & Hloads)];
      destruct (Hup i a) as (r' & Hr' & Hq); [congruence|].
    rewrite Hr in Hr'. injection Hr' as <-.
    rewrite Forall_forall in Hq. by destruct (Hq _ Hin _ _ Hloads).
Qed.

(** A model that asks for tools at every round-trip, with arguments on
    which [json.loads] raises nothing but [JSONDecodeError], uses the
    whole budget: [remaining] round-trips are made, and the message
    returned is that of the last one. *)
Lemma send_loop_insistent remaining iteration m w :
  (∀ i a, ∃ r, create env i a = Ok r
               ∧ requested (choice_message r) ≠ []
               ∧ Forall (loads_quietly env) (requested (choice_message r))) →
  ∃ m' w' completions,
    send_loop env remaining iteration m w = (Ok m', w')
    ∧ filter is_completion (events w')
      = filter is_completion (events w) ++ completions
    ∧ length completions = remaining
    ∧ match remaining with
      | O => m' = m
      | S n =>
          ∃ r, last completions = Some (Completion (iteration + n) (Ok r))
               ∧ m' = Some (choice_message r)
      end.
Proof.
  intros Hask. revert iteration m w.
  induction remaining as [|remaining IH]; intros iteration m w.
  - exists m, w, []. by rewrite app_nil_r.
  - cbn [send_loop].
    destruct (Hask iteration (agent w)) as (r & Hr & Hcalls & Hq).
    rewrite Hr. cbn zeta.
    destruct (requested (choice_message r)) as [|c calls] eqn:Hreq; [done|].
    match goal with
    | |- context [tool_round env ?w1 ?cs] =>
        pose proof (tool_round_quiet env w1 cs Hq) as Hnone;
        pose proof (tool_round_completions env w1 cs) as Hcompl;
        destruct (tool_round env w1 cs) as [raised w2]
    end.
    simpl in Hnone, Hcompl. subst raised.
    destruct (IH (S iteration) (Some (choice_message r)) w2)
      as (m' & w' & completions & -> & Hev & Hlen & Hlast).
    exists m', w', (Completion iteration (Ok r) :: completions).
    split; [done|].
    rewrite Hev, Hcompl. simpl.
    rewrite filter_app, filter_cons_True by done. simpl.
    rewrite <- app_assoc. split; [done|]. split; [by rewrite Hlen|].
    destruct remaining as [|n].
    + destruct completions; [|done]. subst m'.
      exists r. by rewrite Nat.add_0_r.
    + destruct Hlast as (r' & Hlast & ->). exists r'. split; [|done].
      destruct completions as [|c0 completions]; [done|].
      rewrite last_cons_cons. rewrite Hlast. do 2 f_equal. lia.
Qed.

End SendLoop.

(** A whole turn keeps system messages out of the positions after the
    first, whatever the endpoint, the tools and the schedule do. *)
Section TurnKeepsSystemFirst.
Context (env : Environment).
Implicit Types (a : Agent) (w : World) (t : Task).

Lemma _call_tool_safe_system_first w t :
  system_first (agent w) → system_first (agent (_call_tool_safe env w t)).
Proof.
  unfold system_first in *.
  intros Hw. rewrite _call_tool_safe_eq. simpl.
  apply tail_snoc_not_system; [done|].
  unfold after_call. destruct (resets_context t); [constructor|done].
Qed.

Lemma run_tasks_system_first w order :
  system_first (agent w) → system_first (agent (run_tasks env w order)).
Proof.
  unfold system_first in *.
  induction order as [|t order IH] using rev_ind; [done|].
  intros Hw. rewrite run_tasks_snoc.
  by apply _call_tool_safe_system_first, IH.
Qed.

Lemma tail_app_not_system (l refusals : list Message) :
  Forall (λ m, role m ≠ system) (tail l) →
  Forall (λ m, role m ≠ system) refusals →
  Forall (λ m, role m ≠ system) (tail (l ++ refusals)).
Proof.
  intros Hl Hr. destruct l as [|m0 l]; simpl in *.
  - destruct refusals as [|m refusals]; [done|]. by inversion Hr.
  - apply Forall_app. done.
Qed.

Lemma tool_round_system_first w calls :
  system_first (agent w) → system_first (agent (tool_round env w calls).2).
Proof.
  intros Hw.
  destruct (tool_round_eq env w calls)
    as (raised & done & rest & new & -> & _).
  cbn [snd].
  match goal with
  | |- context [with_context ?l (agent w)] =>
      assert (system_first (with_context l (agent w))) as Hw1
  end.
  { unfold system_first in *. simpl. apply tail_app_not_system; [done|].
    apply Forall_fmap, Forall_forall. done. }
  destruct raised, new; try done.
  by apply run_tasks_system_first.
Qed.

Lemma send_loop_system_first remaining iteration m w :
  system_first (agent w) →
  system_first (agent (send_loop env remaining iteration m w).2).
Proof.
  unfold system_first in *.
  revert iteration m w.
  induction remaining as [|remaining IH]; intros iteration m w Hw; [done|].
  cbn [send_loop].
  destruct (create env iteration (agent w)) as [r|e]; [|done]. cbn zeta.
  assert (system_first
            (append (assistant_dict (choice_message r))
               (trim_context
                  (with_total_context_tokens (usage_total_tokens r)
                                             (agent w))))) as Hnext.
  { apply tail_snoc_not_system; [done|]. by apply trim_loop_tail. }
  destruct (requested (choice_message r)) as [|c calls]; [done|].
  match goal with
  | |- context [tool_round env ?w1 ?cs] =>
      pose proof (tool_round_system_first w1 cs Hnext) as Hround;
      destruct (tool_round env w1 cs) as [[e1|] w2]
  end; [done|].
  by apply IH.
Qed.

Lemma send_message_system_first message w :
  system_first (agent w) →
  system_first (agent (send_message env message w).2).
Proof.
  unfold system_first in *.
  intros Hw. unfold send_message.
  match goal with
  | |- context [send_loop env ?n ?i ?m ?w1] =>
      pose proof (send_loop_system_first n i m w1) as Hloop;
      destruct (send_loop env n i m w1) as [r w']
  end.
  simpl in *. apply Hloop. by apply tail_snoc_not_system.
Qed.

End TurnKeepsSystemFirst.

(** C6.  The [for] loop answers a call itself when [json.loads] raises
    [JSONDecodeError] on its arguments, and lets through whatever else
    [json.loads] raises.  On a hundred thousand opening brackets it raises
    [RecursionError]: the round that asks for call_0 with text that is no
    JSON, for call_1 with the brackets and for call_2 with the empty
    object answers call_0 with the parse error and raises at call_1, which
    gets no tool message; call_2 is never looked at, nothing is invoked,
    and [send_message] raises the same exception to its caller with no
    tool message in the log. *)
Theorem deep_arguments_get_no_message :
  let e := {| exc_class := "RecursionError"; exc_str := Demo.too_deep |} in
  json_loads Demo.nesting Demo.deep = LoadsRaised "RecursionError" Demo.too_deep
  ∧ tool_round Demo.nesting (Samples.fresh default_settings)
      [Samples.request "call_0" "get_datetime" "oops";
       Samples.request "call_1" "get_datetime" Demo.deep;
       Samples.request "call_2" "get_total_context_tokens" "{}"]
    = (Some e,
       on_agent
         (append
            {| role := tool;
               content :=
                 "Error parsing arguments: Expecting value: line 1 column 1 (char 0)";
               tool_call_id := Some "call_0"; name := Some "get_datetime";
               tool_calls := None |})
         (Samples.fresh default_settings))
  ∧ (send_message Demo.nesting "What time is it?"
                  (Samples.fresh Samples.two_rounds)).1 = Raise e
  ∧ tool_messages
      (_context (agent (send_message Demo.nesting "What time is it?"
                          (Samples.fresh Samples.two_rounds)).2)) = []
  ∧ filter (λ ev, is_completion ev = false)
      (events (send_message Demo.nesting "What time is it?"
                 (Samples.fresh Samples.two_rounds)).2) = [].
Proof.
  intros e. subst e. split_and!; by vm_compute.
Qed.



(** C4, as the code has it.  A requested call whose arguments parse and
    whose name is not a key of the registry raises nothing: the round
    appends one tool message with the content Unknown tool: followed by the
    name, carrying the id and the name of the call, performs no invocation
    and emits no event.  (A call whose arguments fail with
    [JSONDecodeError] is answered with the parse error whatever its name.)
    And as long as the completion endpoint answers, asking only for calls
    on whose arguments [json.loads] raises nothing but [JSONDecodeError],
    [send_message] returns a text to its caller. *)
Theorem unknown_tool_is_reported_in_the_log (env : Environment) (w : World)
    (tool_call : ToolCall) (function_args : JsonValue) :
  json_loads env (fn_arguments (call_function tool_call))
    = Loaded function_args →
  _tools (agent w) !! fn_name (call_function tool_call) = None →
  tool_round env w [tool_call]
    = (None,
       on_agent
         (append
            {| role := tool;
               content :=
                 "Unknown tool: " +:+ fn_name (call_function tool_call);
               tool_call_id := Some (call_id tool_call);
               name := Some (fn_name (call_function tool_call));
               tool_calls := None |})
         w)
  ∧ ∀ message,
      (∀ iteration a,
         ∃ r, create env iteration a = Ok r
              ∧ Forall (loads_quietly env) (requested (choice_message r))) →
      ∃ text w', send_message env message w = (Ok text, w').
Proof.
  intros Hloads Hlook. split.
  - unfold tool_round. cbn [schedule_loop]. unfold schedule.
    by rewrite Hloads, Hlook.
  - intros message Hup. unfold send_message.
    match goal with
    | |- context [send_loop env ?n ?i ?m ?w1] =>
        destruct (send_loop_returns env n i m w1 Hup) as (m' & w' & ->)
    end.
    destruct m'; eauto.
Qed.

Lemma unknown_tool_is_reported_in_the_log_witness :
  tool_round Samples.confused (Samples.fresh Samples.two_rounds)
             [Samples.request "call_0" "frobnicate" "{}"]
    = (None,
       on_agent
         (append {| role := tool; content := "Unknown tool: frobnicate";
                    tool_call_id := Some "call_0";
                    name := Some "frobnicate"; tool_calls := None |})
         (Samples.fresh Samples.two_rounds))
  ∧ ∃ text w',
      send_message Samples.confused "What time is it?"
                   (Samples.fresh Samples.two_rounds) = (Ok text, w').
Proof.
  destruct (unknown_tool_is_reported_in_the_log Samples.confused
              (Samples.fresh Samples.two_rounds)
              (Samples.request "call_0" "frobnicate" "{}") (JObject [])
              eq_refl eq_refl) as [Hround Hturn].
  split; [exact Hround|].
  apply Hturn. intros [|iteration] a; eexists; (split; [reflexivity|]).
  - repeat constructor. intros class_name what. vm_compute. discriminate.
  - constructor.
Defined.

(** C4, as the claim has it, fails: the model asks for a tool named
    frobnicate, which the registry does not hold, and [send_message]
    raises nothing; it returns the text of the next answer, and the log
    holds a tool message saying the tool is unknown. *)
Lemma unknown_tool_raises_nothing :
  _tools (agent (Samples.fresh Samples.two_rounds)) !! "frobnicate" = None
  ∧ (send_message Samples.confused "What time is it?"
                  (Samples.fresh Samples.two_rounds)).1 = Ok "done"
  ∧ {| role := tool; content := "Unknown tool: frobnicate";
       tool_call_id := Some "call_0"; name := Some "frobnicate";
       tool_calls := None |}
    ∈ _context (agent (send_message Samples.confused "What time is it?"
                                    (Samples.fresh Samples.two_rounds)).2)
  ∧ ¬ ∃ e, (send_message Samples.confused "What time is it?"
                         (Samples.fresh Samples.two_rounds)).1 = Raise e.
Proof.
  split; [reflexivity|]. split; [reflexivity|]. split.
  - vm_compute. right. right. left.
  - intros [e He]. vm_compute in He. discriminate He.
Qed.

(** C3.  With a budget of two iterations, the model of [Demo.nesting]
    asks at every round-trip for two tool calls, the first with a hundred
    thousand opening brackets as arguments.  [json.loads] raises
    [RecursionError] on them, the [except] clause of the [for] loop lets
    it through, and [send_message] raises it to its caller after one
    completion round-trip instead of two. *)
Theorem deep_arguments_abort_the_turn :
  let turn := send_message Demo.nesting "What time is it?"
                (Samples.fresh Samples.two_rounds) in
  _max_tool_call_iterations (agent (Samples.fresh Samples.two_rounds)) = 2%Z
  ∧ (∀ iteration a,
       ∃ r, create Demo.nesting iteration a = Ok r
            ∧ requested (choice_message r) ≠ [])
  ∧ turn.1 = Raise {| exc_class := "RecursionError";
                      exc_str := Demo.too_deep |}
  ∧ length (filter is_completion (events turn.2)) = 1.
Proof.
  split_and!.
  - reflexivity.
  - intros iteration a. eexists. split; [reflexivity|]. discriminate.
  - vm_compute. reflexivity.
  - vm_compute. reflexivity.
Qed.

(* ===================================================================== *)
(** * Completion order                                                    *)
(* ===================================================================== *)

Section CompletionOrder.
Context (env env' : Environment).
Implicit Types (a b : Agent) (w : World) (t : Task).

Lemma call_same_answers t a :
  same_answers env env' →
  call env (task_tool t) a (task_args t) (task_call_id t)
    = call env' (task_tool t) a (task_args t) (task_call_id t).
Proof.
  intros (Herr & Hnow & Hcall). unfold call.
  by rewrite Herr, Hnow, Hcall.
Qed.

Lemma run_tasks_same_answers w order :
  same_answers env env' → run_tasks env w order = run_tasks env' w order.
Proof.
  intros Hsame. unfold run_tasks. revert w.
  induction order as [|t order IH]; intros w; [done|]. simpl.
  rewrite <- IH. f_equal. unfold _call_tool_safe.
  by rewrite (call_same_answers t (agent w) Hsame).
Qed.

Lemma suspends_no_reset t : suspends t → resets_context t = false.
Proof.
  unfold suspends, resets_context. by destruct (task_tool t).
Qed.

End CompletionOrder.

(** C8.  Take the coroutines of one round and two runs of [gather] on
    them, the clock and the remote servers giving each invocation the same
    answer in both.  The coroutines that never suspend complete first, in
    the order they were listed, in both runs; the others complete in any
    order, in the second run for instance in the reverse of the first.
    Then the two logs hold the same messages, the tool messages among them
    with the same id, name and content, at most in different positions,
    and the estimate is the same; every coroutine ran in both runs, and
    the reply of every coroutine that suspended is in the log. *)
Theorem completion_order_same_replies (env env' : Environment) (w : World)
    (tool_tasks : list Task) :
  same_answers env env' →
  asyncio_order tool_tasks (completion_order env tool_tasks) →
  asyncio_order tool_tasks (completion_order env' tool_tasks) →
  let forth := agent (gather env w tool_tasks) in
  let back := agent (gather env' w tool_tasks) in
  _context back ≡ₚ _context forth
  ∧ tool_messages (_context back) ≡ₚ tool_messages (_context forth)
  ∧ _total_context_tokens back = _total_context_tokens forth
  ∧ events (gather env w tool_tasks)
    ≡ₚ events w ++ (invocation <$> tool_tasks)
  ∧ events (gather env' w tool_tasks)
    ≡ₚ events w ++ (invocation <$> tool_tasks)
  ∧ (∀ t, t ∈ tool_tasks → suspends t →
       {| role := tool;
          content :=
            response_text
              (call env (task_tool t) (agent w) (task_args t)
                    (task_call_id t)).2;
          tool_call_id := Some (task_call_id t);
          name := Some (task_name t); tool_calls := None |}
       ∈ _context forth).
Proof.
  intros Hsame (later & Horder & Hlater) (later' & Horder' & Hlater').
  intros forth back. subst forth back.
  assert (∀ e : Environment,
            events (gather e w tool_tasks)
              ≡ₚ events w ++ (invocation <$> tool_tasks)) as Hevents.
  { intros e. unfold gather.
    by rewrite run_tasks_events, completion_order_perm. }
  set (w1 := run_tasks env w (filter (λ t : Task, ¬ suspends t) tool_tasks)).
  assert (∀ l, l ≡ₚ filter (λ t : Task, suspends t) tool_tasks →
               Forall (λ t, resets_context t = false) l) as Hquiet.
  { intros l Hl. rewrite Hl. apply Forall_forall. intros t Ht.
    apply list_elem_of_filter in Ht as [Ht _].
    by apply suspends_no_reset. }
  assert (agent (gather env w tool_tasks)
          = with_context
              (_context (agent w1) ++ (reply env (agent w1) <$> later))
              (agent w1)) as Hforth.
  { unfold gather. rewrite Horder, run_tasks_app.
    apply (run_tasks_no_reset env w1 later (Hquiet _ Hlater)). }
  assert (agent (gather env' w tool_tasks)
          = with_context
              (_context (agent w1) ++ (reply env (agent w1) <$> later'))
              (agent w1)) as Hback.
  { unfold gather. rewrite Horder'.
    rewrite <- (run_tasks_same_answers env env' _ _ Hsame).
    rewrite run_tasks_app.
    apply (run_tasks_no_reset env w1 later' (Hquiet _ Hlater')). }
  rewrite Hforth, Hback. simpl.
  assert (later' ≡ₚ later) as Hperm by (by rewrite Hlater, Hlater').
  assert (_context (agent w1) ++ (reply env (agent w1) <$> later')
          ≡ₚ _context (agent w1) ++ (reply env (agent w1) <$> later))
    as Hlog by (by rewrite Hperm).
  split_and!; [done| |done|apply Hevents|apply Hevents|].
  - unfold tool_messages. by rewrite Hlog.
  - intros t Hin Ht. apply elem_of_app. right.
    apply list_elem_of_fmap. exists t. split.
    + unfold reply, tool_message, call. unfold suspends in Ht.
      destruct (task_tool t); try by destruct Ht.
      repeat case_match; done.
    + rewrite Hlater. apply list_elem_of_filter. done.
Qed.

Lemma completion_order_same_replies_witness :
  let tool_tasks := [Samples.read_tokens; Samples.clear;
                     Samples.add_15_27; Demo.multiply_2_3] in
  completion_order Samples.quiet tool_tasks
    = [Samples.read_tokens; Samples.clear;
       Samples.add_15_27; Demo.multiply_2_3]
  ∧ completion_order Demo.backwards tool_tasks
    = [Samples.read_tokens; Samples.clear;
       Demo.multiply_2_3; Samples.add_15_27]
  ∧ _context (agent (gather Samples.quiet Samples.mid_turn tool_tasks))
    = [ {| role := tool; content := "Context cleared.";
           tool_call_id := Some "call_b"; name := Some "clear_context";
           tool_calls := None |};
        {| role := tool; content := "42";
           tool_call_id := Some "call_c"; name := Some "add";
           tool_calls := None |};
        {| role := tool; content := "42";
           tool_call_id := Some "call_f"; name := Some "multiply";
           tool_calls := None |} ]
  ∧ _context (agent (gather Demo.backwards Samples.mid_turn tool_tasks))
    ≡ₚ _context (agent (gather Samples.quiet Samples.mid_turn tool_tasks)).
Proof.
  intros tool_tasks. split; [reflexivity|]. split; [reflexivity|].
  split; [reflexivity|].
  apply (completion_order_same_replies Samples.quiet Demo.backwards
           Samples.mid_turn tool_tasks).
  - repeat split.
  - exists [Samples.add_15_27; Demo.multiply_2_3]. split; reflexivity.
  - exists [Demo.multiply_2_3; Samples.add_15_27]. split; [reflexivity|].
    apply Permutation_swap.
Defined.
(* ===================================================================== *)
(** * The context-reset tool in a round                                   *)
(* ===================================================================== *)



(* ===================================================================== *)
(** * More on trimming                                                    *)
(* ===================================================================== *)

Section TrimmedBlock.
Implicit Types (a : Agent) (m : Message) (l rest : list Message).

Lemma trim_loop_max_context_tokens fuel a :
  _max_context_tokens (trim_loop fuel a) = _max_context_tokens a.
Proof.
  revert a. induction fuel as [|fuel IH]; intros a; simpl; [done|].
  destruct (trim_step a) as [a'|] eqn:Hstep; [|done].
  rewrite IH.
  by apply trim_step_Some in Hstep as (m0 & m1 & rest & _ & _ & _ & ->).
Qed.

Lemma trim_loop_fixed fuel a : trim_step a = None → trim_loop fuel a = a.
Proof. intros Hexit. destruct fuel; simpl; [done|]. by rewrite Hexit. Qed.

(** What the loop removes is a run of messages right after position 0,
    none of them a system message, each removed while the estimate was
    still above the ceiling; the estimate is charged their sizes. *)
Lemma trim_loop_block fuel a m0 rest :
  _context a = m0 :: rest →
  length rest ≤ fuel →
  ∃ k,
    k ≤ length rest
    ∧ _context (trim_loop fuel a) = m0 :: drop k rest
    ∧ _total_context_tokens (trim_loop fuel a)
      = (_total_context_tokens a - estimates (take k rest))%Z
    ∧ Forall (λ j, (_total_context_tokens a - estimates (take j rest)
                    > _max_context_tokens a)%Z) (seq 0 k)
    ∧ Forall (λ m, role m ≠ system) (take k rest).
Proof.
  revert a rest. induction fuel as [|fuel IH]; intros a rest Hctx Hlen.
  - exists 0. simpl. rewrite drop_0, take_0. simpl.
    repeat split; [lia|done|lia|constructor|constructor].
  - simpl. destruct (trim_step a) as [a'|] eqn:Hstep.
    + apply trim_step_Some in Hstep
        as (m0' & m1 & rest' & Hctx' & Hrole & Hover & ->).
      rewrite Hctx in Hctx'. injection Hctx' as <- ->.
      destruct (IH (with_total_context_tokens
                      (_total_context_tokens a - estimate m1)%Z
                      (with_context (m0 :: rest') a)) rest')
        as (k & Hk & Hlog & Htok & Hmin & Hsys); [done|simpl in *; lia|].
      exists (S k). simpl in *. rewrite Hlog, Htok.
      repeat split; [lia|lia| |by constructor].
      constructor; [simpl; lia|].
      rewrite <- (fmap_S_seq 0). apply Forall_fmap.
      eapply Forall_impl; [exact Hmin|]. intros j Hj. simpl in *. lia.
    + exists 0. simpl. rewrite drop_0, take_0. simpl.
      repeat split; [lia|done|lia|constructor|constructor].
Qed.

End TrimmedBlock.

(** X1.  [trim_context] removes a block of k messages that starts at
    position 1 and leaves everything else in place.  The estimate goes
    down by the sum of their estimates, none of them is a system message,
    and each was removed while the estimate was still above the ceiling.
    When it stops, the estimate is within the ceiling, or at most one
    message is left, or the message at position 1 is a system message. *)
Theorem trim_context_evicts_block (a : Agent) :
  ∃ k,
    k ≤ length (tail (_context a))
    ∧ _context (trim_context a)
      = take 1 (_context a) ++ drop (S k) (_context a)
    ∧ _total_context_tokens (trim_context a)
      = (_total_context_tokens a - estimates (take k (tail (_context a))))%Z
    ∧ Forall (λ j, (_total_context_tokens a
                    - estimates (take j (tail (_context a)))
                    > _max_context_tokens a)%Z) (seq 0 k)
    ∧ Forall (λ m, role m ≠ system) (take k (tail (_context a)))
    ∧ ((_total_context_tokens (trim_context a) ≤ _max_context_tokens a)%Z
       ∨ length (_context (trim_context a)) ≤ 1
       ∨ ∃ m, _context (trim_context a) !! 1 = Some m ∧ role m = system).
Proof.
  assert ((_total_context_tokens (trim_context a) ≤ _max_context_tokens a)%Z
          ∨ length (_context (trim_context a)) ≤ 1
          ∨ ∃ m, _context (trim_context a) !! 1 = Some m ∧ role m = system)
    as Hexit.
  { pose proof (trim_context_exits a) as Hstop. unfold trim_step in Hstop.
    replace (_max_context_tokens (trim_context a))
      with (_max_context_tokens a) in Hstop
      by (symmetry; apply trim_loop_max_context_tokens).
    case_bool_decide as Htok; [|left; lia].
    case_bool_decide as Hlen; [|right; left; lia].
    simpl in Hstop. right. right.
    destruct (_context (trim_context a) !! 1) as [m|] eqn:Hm.
    - exists m. split; [done|]. unfold is_system in Hstop.
      by case_bool_decide.
    - apply lookup_ge_None in Hm. lia. }
  remember (trim_context a) as b eqn:Hb. unfold trim_context in Hb.
  destruct (_context a) as [|m0 rest] eqn:Hctx.
  - simpl in Hb. subst b. exists 0. rewrite Hctx. simpl.
    split_and!; [lia|done|lia|constructor|constructor|right; left; lia].
  - destruct (trim_loop_block (length (m0 :: rest)) a m0 rest Hctx)
      as (k & Hk & Hlog & Htok & Hmin & Hsys); [simpl; lia|].
    rewrite <- Hb in Hlog, Htok.
    exists k. cbn [tail take drop app].
    rewrite Hlog, Htok in Hexit |- *. by rewrite take_0.
Qed.

(** X2.  Trimming a trimmed agent changes nothing, and trimming changes
    nothing at all when the estimate is within the ceiling. *)
Theorem trim_context_idempotent (a : Agent) :
  trim_context (trim_context a) = trim_context a
  ∧ ((_total_context_tokens a ≤ _max_context_tokens a)%Z →
     trim_context a = a).
Proof.
  split.
  - apply trim_loop_fixed, trim_context_exits.
  - intros Hwithin. apply trim_loop_fixed. unfold trim_step.
    case_bool_decide; [lia|done].
Qed.

Lemma trim_context_idempotent_witness :
  trim_context (agent Demo.told_you) = agent Demo.told_you.
Proof.
  apply (proj2 (trim_context_idempotent (agent Demo.told_you))).
  vm_compute. discriminate.
Defined.

(** X3.  Setting the system message twice leaves what setting the second
    one alone leaves: the later text wins and the log grows at most once. *)
Theorem set_system_message_overwrites (first second : string) (a : Agent) :
  set_system_message second (set_system_message first a)
    = set_system_message second a.
Proof.
  unfold set_system_message, is_system.
  destruct (_context a) as [|m rest] eqn:Hctx; simpl; [done|].
  case_bool_decide as Hrole; simpl.
  - rewrite bool_decide_eq_true_2 by done. done.
  - done.
Qed.

(* ===================================================================== *)
(** * More on rounds and turns                                            *)
(* ===================================================================== *)

Section Turn.
Context (env : Environment).
Implicit Types (a : Agent) (w : World) (t : Task).
Implicit Types (tool_call : ToolCall) (calls : list ToolCall).

Lemma _call_tool_safe_fixed w t :
  fixed_part (agent (_call_tool_safe env w t)) = fixed_part (agent w).
Proof.
  rewrite _call_tool_safe_eq. unfold after_call.
  by destruct (resets_context t).
Qed.

Lemma run_tasks_fixed w order :
  fixed_part (agent (run_tasks env w order)) = fixed_part (agent w).
Proof.
  induction order as [|t order IH] using rev_ind; [done|].
  by rewrite run_tasks_snoc, _call_tool_safe_fixed.
Qed.

Lemma tool_round_fixed w calls :
  fixed_part (agent (tool_round env w calls).2) = fixed_part (agent w).
Proof.
  destruct (tool_round_eq env w calls)
    as (raised & done & rest & new & -> & _).
  cbn [snd]. destruct raised, new; try done.
  unfold gather. by rewrite run_tasks_fixed.
Qed.

Lemma send_loop_fixed remaining iteration m w :
  fixed_part (agent (send_loop env remaining iteration m w).2)
    = fixed_part (agent w).
Proof.
  revert iteration m w.
  induction remaining as [|remaining IH]; intros iteration m w; [done|].
  cbn [send_loop].
  destruct (create env iteration (agent w)) as [r|e]; [|done]. cbn zeta.
  assert (fixed_part (trim_context
                        (with_total_context_tokens (usage_total_tokens r)
                                                   (agent w)))
          = fixed_part (agent w)) as Htrim.
  { unfold fixed_part, trim_context.
    by rewrite trim_loop_max_iterations, trim_loop_max_context_tokens,
               trim_loop_tools. }
  destruct (requested (choice_message r)) as [|c calls]; [done|].
  match goal with
  | |- context [tool_round env ?w1 ?cs] =>
      pose proof (tool_round_fixed w1 cs) as Hround;
      destruct (tool_round env w1 cs) as [[e1|] w2]
  end; simpl in Hround.
  - cbn [snd]. by rewrite Hround.
  - by rewrite IH, Hround.
Qed.

(** A round that cannot reset: the log only gains tool messages and
    nothing else of the agent changes; when the [for] loop raised nothing,
    there is one tool message per requested call. *)
Lemma tool_round_log w calls :
  no_reset_tool (agent w) →
  ∃ replies,
    agent (tool_round env w calls).2
      = with_context (_context (agent w) ++ replies) (agent w)
    ∧ Forall (λ m, role m = tool) replies
    ∧ ((tool_round env w calls).1 = None →
       answers <$> replies ≡ₚ asked <$> calls).
Proof.
  intros Hno.
  destruct (tool_round_eq env w calls)
    as (raised & done & rest & new & -> & -> & _ & Hr & _ & Ha & Hreg).
  cbn [fst snd].
  set (refusals :=
         refusal_message env
           <$> filter (λ tool_call, refused env (agent w) tool_call = true)
                      done) in *.
  assert (Forall (λ m, role m = tool) refusals) as Htool.
  { apply Forall_fmap, Forall_forall. done. }
  assert ((answers <$> refusals) ++ (answered <$> new) ≡ₚ asked <$> done)
    as Hperm.
  { rewrite Ha. unfold refusals. rewrite <- list_fmap_compose.
    apply (refused_partition env asked). }
  destruct raised as [e|].
  - exists refusals. split_and!; done.
  - subst rest. rewrite app_nil_r. destruct new as [|t new].
    + exists refusals. split_and!; try done. intros _.
      simpl in Hperm. by rewrite app_nil_r in Hperm.
    + unfold gather.
      set (a1 := with_context (_context (agent w) ++ refusals) (agent w)).
      set (order := completion_order env (t :: new)).
      assert (Forall (λ t, resets_context t = false) order) as Hquiet.
      { unfold order. rewrite completion_order_perm.
        eapply Forall_impl; [exact Hreg|]. intros t' Ht'.
        unfold resets_context.
        destruct (task_tool t') eqn:Htl; try done.
        simpl in Ht'. rewrite Htl in Ht'. by destruct (Hno _ Ht'). }
      rewrite (run_tasks_no_reset env _ order Hquiet). simpl.
      exists (refusals ++ (reply env a1 <$> order)). split_and!.
      * unfold with_context. simpl. by rewrite <- app_assoc.
      * apply Forall_app. split; [done|].
        apply Forall_fmap, Forall_forall. done.
      * intros _. rewrite fmap_app, <- Hperm. f_equiv.
        rewrite <- list_fmap_compose.
        change (answers ∘ reply env a1) with answered.
        unfold order. by rewrite completion_order_perm.
Qed.

(** The completion events of the loop: at most [remaining] of them,
    numbered from [iteration] on.  The loop returns what the last of them
    brought; what it raises, the last of them raised, or [json.loads]
    raised on the arguments of a call the last of them asked for. *)
Lemma send_loop_completions remaining iteration m w :
  ∃ completions,
    filter is_completion (events (send_loop env remaining iteration m w).2)
      = filter is_completion (events w) ++ completions
    ∧ length completions ≤ remaining
    ∧ (1 ≤ remaining → 1 ≤ length completions)
    ∧ completion_number <$> completions
      = Some <$> seq iteration (length completions)
    ∧ match (send_loop env remaining iteration m w).1 with
      | Ok m' =>
          (completions = [] ∧ m' = m)
          ∨ ∃ i r, last completions = Some (Completion i (Ok r))
                   ∧ m' = Some (choice_message r)
      | Raise e =>
          ∃ i,
            last completions = Some (Completion i (Raise e))
            ∨ ∃ r tool_call,
                last completions = Some (Completion i (Ok r))
                ∧ tool_call ∈ requested (choice_message r)
                ∧ json_loads env (fn_arguments (call_function tool_call))
                  = LoadsRaised (exc_class e) (exc_str e)
      end.
Proof.
  revert iteration m w.
  induction remaining as [|remaining IH]; intros iteration m w.
  - exists []. simpl. rewrite app_nil_r. split_and!; try done. by left.
  - cbn [send_loop].
    destruct (create env iteration (agent w)) as [r|e] eqn:Hcreate; cbn zeta.
    + destruct (requested (choice_message r)) as [|c calls] eqn:Hreq.
      * exists [Completion iteration (Ok r)]. simpl.
        rewrite filter_app. split_and!; try done; [lia|]. right. eauto.
      * match goal with
        | |- context [tool_round env ?w1 ?cs] =>
            pose proof (tool_round_raise env w1 cs) as Hraise;
            pose proof (tool_round_completions env w1 cs) as Hcompl;
            destruct (tool_round env w1 cs) as [[e1|] w2]
        end; simpl in Hraise, Hcompl.
        -- exists [Completion iteration (Ok r)]. simpl.
           rewrite Hcompl. simpl. rewrite filter_app.
           split_and!; try done; [lia|].
           destruct (Hraise e1 eq_refl) as (tool_call & Hin & Hloads).
           exists iteration. right. exists r, tool_call.
           by rewrite Hreq.
        -- destruct (IH (S iteration) (Some (choice_message r)) w2)
             as (completions & Hev & Hlen & _ & Hnum & Hlast).
           exists (Completion iteration (Ok r) :: completions).
           rewrite Hev, Hcompl. simpl.
           rewrite filter_app, <- app_assoc.
           split_and!; try done; try lia.
           ++ f_equal. exact Hnum.
           ++ destruct (send_loop env remaining _ _ _).1 as [m'|e'].
              ** right. destruct Hlast as [[-> ->]|(i & r' & Hlast & ->)].
                 --- eauto.
                 --- exists i, r'. split; [|done].
                     destruct completions; [done|].
                     by rewrite last_cons_cons.
              ** destruct Hlast as [i Hlast]. exists i.
                 destruct completions as [|c0 completions].
                 { by destruct Hlast as [?|(? & ? & ? & _)]. }
                 by rewrite last_cons_cons.
    + exists [Completion iteration (Raise e)]. simpl.
      rewrite filter_app. split_and!; try done; [lia|]. eauto.
Qed.

End Turn.

Section TurnHead.
Context (env : Environment).
Implicit Types (a : Agent) (w : World).

Lemma no_reset_tool_fixed a b :
  fixed_part a = fixed_part b → no_reset_tool a → no_reset_tool b.
Proof. unfold no_reset_tool. intros [= _ _ <-]. done. Qed.

(** Without the context-reset tool in the registry the loop never touches
    position 0 of the log. *)
Lemma send_loop_head remaining iteration m w (m0 : Message) :
  no_reset_tool (agent w) →
  head (_context (agent w)) = Some m0 →
  head (_context (agent (send_loop env remaining iteration m w).2)) = Some m0.
Proof.
  revert iteration m w.
  induction remaining as [|remaining IH]; intros iteration m w Hno Hhead;
    [done|].
  cbn [send_loop].
  destruct (create env iteration (agent w)) as [r|e]; [|done]. cbn zeta.
  set (a1 := append (assistant_dict (choice_message r))
               (trim_context
                  (with_total_context_tokens (usage_total_tokens r)
                                             (agent w)))).
  assert (head (_context a1) = Some m0) as Hhead1.
  { unfold a1, append, trim_context. simpl.
    rewrite head_app, trim_loop_head. simpl. by rewrite Hhead. }
  assert (no_reset_tool a1) as Hno1.
  { eapply no_reset_tool_fixed; [|exact Hno].
    unfold a1, fixed_part, trim_context. simpl.
    by rewrite trim_loop_max_iterations, trim_loop_max_context_tokens,
               trim_loop_tools. }
  destruct (requested (choice_message r)) as [|c calls]; [done|].
  match goal with
  | |- context [tool_round env ?w1 ?cs] =>
      destruct (tool_round_log env w1 cs Hno1) as (replies & Hlog & _);
      pose proof (tool_round_fixed env w1 cs) as Hfix;
      destruct (tool_round env w1 cs) as [[e1|] w2]
  end; simpl in Hlog, Hfix.
  - cbn [snd]. rewrite Hlog.
    assert (head (_context a1 ++ replies) = Some m0) as Hgoal
      by (by rewrite head_app, Hhead1).
    exact Hgoal.
  - apply IH.
    + eapply no_reset_tool_fixed; [symmetry; exact Hfix|exact Hno1].
    + rewrite Hlog.
      assert (head (_context a1 ++ replies) = Some m0) as Hgoal
        by (by rewrite head_app, Hhead1).
      exact Hgoal.
Qed.

End TurnHead.
(** X4.  With a budget of zero iterations or less, [send_message] asks
    the endpoint nothing and returns the empty text; the user message is
    appended all the same, and nothing else changes. *)
Theorem send_message_without_budget (env : Environment) (message : string)
    (w : World) :
  (_max_tool_call_iterations (agent w) ≤ 0)%Z →
  send_message env message w
    = (Ok "", on_agent (append (user_message message)) w).
Proof.
  intros Hbudget. unfold send_message. cbn [on_agent agent].
  change (_max_tool_call_iterations (append (user_message message) (agent w)))
    with (_max_tool_call_iterations (agent w)).
  replace (Z.to_nat (_max_tool_call_iterations (agent w))) with 0 by lia.
  done.
Qed.

Lemma send_message_without_budget_witness :
  send_message Samples.insistent "What time is it?"
               (Samples.fresh Demo.no_rounds)
    = (Ok "", on_agent (append (user_message "What time is it?"))
                       (Samples.fresh Demo.no_rounds)).
Proof.
  apply (send_message_without_budget Samples.insistent "What time is it?"
           (Samples.fresh Demo.no_rounds)).
  vm_compute. discriminate.
Defined.

(** X5.  With a budget of at least one iteration, what [send_message]
    gives its caller comes from the last completion round-trip of the
    turn: it returns the content of the assistant message of that
    round-trip, the empty text when there is none; and what it raises,
    that round-trip raised, or [json.loads] raised on the arguments of a
    call that round-trip asked for. *)
Theorem send_message_returns_last_answer (env : Environment)
    (message : string) (w : World) :
  (1 ≤ _max_tool_call_iterations (agent w))%Z →
  let turn := send_message env message w in
  ∃ iteration,
    match turn.1 with
    | Ok text =>
        ∃ r, last (filter is_completion (events turn.2))
               = Some (Completion iteration (Ok r))
             ∧ text = match message_content (choice_message r) with
                      | Some said => said
                      | None => EmptyString
                      end
    | Raise e =>
        last (filter is_completion (events turn.2))
          = Some (Completion iteration (Raise e))
        ∨ ∃ r tool_call,
            last (filter is_completion (events turn.2))
              = Some (Completion iteration (Ok r))
            ∧ tool_call ∈ requested (choice_message r)
            ∧ json_loads env (fn_arguments (call_function tool_call))
              = LoadsRaised (exc_class e) (exc_str e)
    end.
Proof.
  intros Hbudget. unfold send_message. cbn [on_agent agent].
  change (_max_tool_call_iterations (append (user_message message) (agent w)))
    with (_max_tool_call_iterations (agent w)).
  match goal with
  | |- context [send_loop env ?n 0 None ?w1] =>
      destruct (send_loop_completions env n 0 None w1)
        as (completions & Hev & _ & Hsome & _ & Hres);
      destruct (send_loop env n 0 None w1) as [res w'] eqn:Hloop
  end.
  simpl in *. rewrite Hev, last_app.
  assert (1 ≤ length completions) as Hlen by (apply Hsome; lia).
  destruct res as [[m|]|e].
  - destruct Hres as [[-> _]|(i & r & Hlast & [= ->])]; [simpl in Hlen; lia|].
    exists i. simpl. rewrite Hlast. eauto.
  - destruct Hres as [[-> _]|(i & r & Hlast & [=])]. simpl in Hlen. lia.
  - destruct Hres as [i [Hlast|(r & tool_call & Hlast & Hin & Hloads)]];
      exists i; simpl; rewrite Hlast; [by left|].
    right. by exists r, tool_call.
Qed.

Lemma send_message_returns_last_answer_witness :
  ∃ iteration r,
    last (filter is_completion
            (events (send_message Samples.confused "What time is it?"
                       (Samples.fresh Samples.two_rounds)).2))
      = Some (Completion iteration (Ok r))
    ∧ "done" = match message_content (choice_message r) with
               | Some said => said
               | None => EmptyString
               end.
Proof.
  destruct (send_message_returns_last_answer Samples.confused
              "What time is it?" (Samples.fresh Samples.two_rounds))
    as [iteration Hlast].
  - vm_compute. discriminate.
  - exists iteration. exact Hlast.
Defined.

(** X6.  When the endpoint raises at the first round-trip of a turn,
    [send_message] raises the same exception and takes nothing back: the
    user message stays in the log, the estimate is untouched, and no
    assistant message is appended. *)
Theorem send_message_failure_keeps_user_message (env : Environment)
    (message : string) (w : World) (e : Exception) :
  (1 ≤ _max_tool_call_iterations (agent w))%Z →
  create env 0 (append (user_message message) (agent w)) = Raise e →
  send_message env message w
    = (Raise e,
       {| agent := append (user_message message) (agent w);
          events := events w ++ [Completion 0 (Raise e)] |}).
Proof.
  intros Hbudget Hdown. unfold send_message. cbn [on_agent agent].
  change (_max_tool_call_iterations (append (user_message message) (agent w)))
    with (_max_tool_call_iterations (agent w)).
  destruct (Z.to_nat (_max_tool_call_iterations (agent w))) as [|n] eqn:Hn;
    [lia|].
  cbn [send_loop agent on_agent emit events]. by rewrite Hdown.
Qed.

Lemma send_message_failure_keeps_user_message_witness :
  _context (agent (send_message Samples.unreachable "What time is it?"
                     (Samples.fresh Samples.two_rounds)).2)
    = [user_message "What time is it?"].
Proof.
  rewrite (send_message_failure_keeps_user_message Samples.unreachable
             "What time is it?" (Samples.fresh Samples.two_rounds)
             {| exc_class := "APIConnectionError";
                exc_str := "Connection error." |}).
  - reflexivity.
  - vm_compute. discriminate.
  - reflexivity.
Defined.

(** X7.  Whatever the endpoint and the tools do, a turn makes no more
    completion round-trips than the budget of iterations, and they are
    numbered 0, 1, 2 and so on without a gap. *)
Theorem send_message_round_trips_bounded (env : Environment)
    (message : string) (w : World) :
  ∃ completions,
    filter is_completion (events (send_message env message w).2)
      = filter is_completion (events w) ++ completions
    ∧ length completions ≤ Z.to_nat (_max_tool_call_iterations (agent w))
    ∧ completion_number <$> completions
      = Some <$> seq 0 (length completions).
Proof.
  unfold send_message. cbn [on_agent agent].
  change (_max_tool_call_iterations (append (user_message message) (agent w)))
    with (_max_tool_call_iterations (agent w)).
  match goal with
  | |- context [send_loop env ?n 0 None ?w1] =>
      destruct (send_loop_completions env n 0 None w1)
        as (completions & Hev & Hlen & _ & Hnum & _);
      destruct (send_loop env n 0 None w1) as [res w'] eqn:Hloop
  end.
  simpl in *. by exists completions.
Qed.

(** X8.  A turn only reads the settings and the registry: after
    [send_message], whatever happened, the budget of iterations, the
    ceiling and the registry of tools are what they were. *)
Theorem send_message_keeps_settings_and_registry (env : Environment)
    (message : string) (w : World) :
  let a' := agent (send_message env message w).2 in
  _max_tool_call_iterations a' = _max_tool_call_iterations (agent w)
  ∧ _max_context_tokens a' = _max_context_tokens (agent w)
  ∧ _tools a' = _tools (agent w).
Proof.
  unfold send_message. cbn [on_agent agent].
  match goal with
  | |- context [send_loop env ?n 0 None ?w1] =>
      pose proof (send_loop_fixed env n 0 None w1) as Hfix;
      destruct (send_loop env n 0 None w1) as [res w'] eqn:Hloop
  end.
  simpl in *. by injection Hfix as -> -> ->.
Qed.

(** X9.  In a round of an agent whose registry does not hold the
    context-reset tool, when [json.loads] raises nothing but
    [JSONDecodeError] on the arguments of the requested calls, the round
    raises nothing and every requested call is answered: the log gains
    exactly one tool message per requested call, carrying the id and the
    name of its call, whether the call was refused, failed or returned;
    the messages already in the log and the estimate are untouched. *)
Theorem tool_round_answers_every_call (env : Environment) (w : World)
    (calls : list ToolCall) :
  no_reset_tool (agent w) →
  Forall (loads_quietly env) calls →
  ∃ w' replies,
    tool_round env w calls = (None, w')
    ∧ _context (agent w') = _context (agent w) ++ replies
    ∧ Forall (λ m, role m = tool) replies
    ∧ answers <$> replies ≡ₚ asked <$> calls
    ∧ length replies = length calls
    ∧ _total_context_tokens (agent w') = _total_context_tokens (agent w).
Proof.
  intros Hno Hq.
  pose proof (tool_round_quiet env w calls Hq) as Hnone.
  destruct (tool_round_log env w calls Hno) as (replies & Hlog & Htool & Hperm).
  destruct (tool_round env w calls) as [raised w'].
  simpl in *. subst raised. specialize (Hperm eq_refl).
  exists w', replies. rewrite Hlog. split_and!; try done.
  apply Permutation_length in Hperm. by rewrite !length_fmap in Hperm.
Qed.

Lemma tool_round_answers_every_call_witness :
  ∃ w' replies,
    tool_round Samples.quiet Demo.without_reset
               [Samples.request "call_0" "clear_context" "{}";
                Samples.request "call_1" "get_datetime" "oops";
                Samples.request "call_2" "get_datetime" "{}"]
      = (None, w')
    ∧ _context (agent w') = _context (agent Demo.without_reset) ++ replies
    ∧ length replies = 3.
Proof.
  destruct (tool_round_answers_every_call Samples.quiet Demo.without_reset
              [Samples.request "call_0" "clear_context" "{}";
               Samples.request "call_1" "get_datetime" "oops";
               Samples.request "call_2" "get_datetime" "{}"])
    as (w' & replies & Hround & Hlog & _ & _ & Hlen & _).
  - intros function_name. simpl.
    destruct (decide (function_name = "clear_context")) as [->|Hne].
    + by rewrite lookup_delete_eq.
    + rewrite lookup_delete_ne by done.
      rewrite !lookup_insert, lookup_empty.
      repeat case_decide; congruence.
  - repeat constructor; intros class_name what; vm_compute; discriminate.
  - exists w', replies. split; [exact Hround|].
    split; [exact Hlog|exact Hlen].
Defined.

Lemma without_reset_has_no_reset_tool :
  no_reset_tool (agent Demo.without_reset).
Proof.
  intros function_name. simpl.
  destruct (decide (function_name = "clear_context")) as [->|Hne].
  - by rewrite lookup_delete_eq.
  - rewrite lookup_delete_ne by done.
    rewrite !lookup_insert, lookup_empty.
    repeat case_decide; congruence.
Qed.

(** X10.  When the registry does not hold the context-reset tool, a whole
    turn leaves position 0 of the log alone: the message that is first
    once the user message is appended is still first when [send_message]
    returns or raises, whatever was trimmed and appended in between. *)
Theorem send_message_keeps_first_message (env : Environment)
    (message : string) (w : World) :
  no_reset_tool (agent w) →
  head (_context (agent (send_message env message w).2))
    = head (_context (agent w) ++ [user_message message]).
Proof.
  intros Hno. unfold send_message. cbn [on_agent agent].
  destruct (head (_context (agent w) ++ [user_message message]))
    as [m0|] eqn:Hhead; [|by destruct (_context (agent w))].
  match goal with
  | |- context [send_loop env ?n 0 None ?w1] =>
      pose proof (send_loop_head env n 0 None w1 m0 Hno Hhead) as Hloop;
      destruct (send_loop env n 0 None w1) as [res w'] eqn:Heq
  end.
  exact Hloop.
Qed.

Lemma send_message_keeps_first_message_witness :
  head (_context (agent (send_message Samples.insistent "What time is it?"
                           Demo.without_reset).2))
    = Some (system_message "Be brief.").
Proof.
  exact (send_message_keeps_first_message Samples.insistent
           "What time is it?" Demo.without_reset
           without_reset_has_no_reset_tool).
Defined.

(** X11.  A built-in tool called with anything but the empty object of
    arguments does not run: the reply is the text Error: followed by the
    message of the TypeError, and the agent is otherwise as before.  In
    particular the context-reset tool called with arguments clears
    nothing. *)
Theorem builtin_tool_rejects_arguments (env : Environment) (w : World)
    (t : Task) :
  is_builtin (task_tool t) = true →
  builtin_binds (task_args t) = false →
  agent (_call_tool_safe env w t)
    = append (tool_message (task_call_id t) (task_name t)
                ("Error: " +:+ type_error env (task_tool t) (task_args t)))
             (agent w).
Proof.
  intros Hbuiltin Hargs. unfold _call_tool_safe, call.
  destruct (task_tool t); try done; by rewrite Hargs.
Qed.

Lemma builtin_tool_rejects_arguments_witness :
  _context (agent (_call_tool_safe Samples.quiet Demo.told_you
                                   Demo.clear_with_arguments))
    = _context (agent Demo.told_you)
      ++ [tool_message "call_e" "clear_context"
            "Error: GetDatetimeTool.call() got an unexpected keyword argument 'zone'"].
Proof.
  rewrite (builtin_tool_rejects_arguments Samples.quiet Demo.told_you
             Demo.clear_with_arguments eq_refl eq_refl).
  reflexivity.
Defined.

(** X18.  With a budget of N >= 1 iterations and a model that requests at
    least one tool call in every answer, on whose arguments [json.loads]
    raises nothing but [JSONDecodeError], [send_message] makes exactly N
    completion round-trips, raises nothing, and returns the content of the
    assistant message of the last round-trip, the empty text when that
    message has none. *)
Theorem send_message_uses_whole_budget (env : Environment) (message : string)
    (w : World) :
  (1 ≤ _max_tool_call_iterations (agent w))%Z →
  (∀ iteration a,
     ∃ r, create env iteration a = Ok r
          ∧ requested (choice_message r) ≠ []
          ∧ Forall (loads_quietly env) (requested (choice_message r))) →
  ∃ r w',
    send_message env message w
      = (Ok match message_content (choice_message r) with
            | Some said => said
            | None => EmptyString
            end,
         w')
    ∧ length (filter is_completion (events w'))
      = length (filter is_completion (events w))
        + Z.to_nat (_max_tool_call_iterations (agent w))
    ∧ last (filter is_completion (events w'))
      = Some (Completion (Z.to_nat (_max_tool_call_iterations (agent w)) - 1)
                         (Ok r)).
Proof.
  intros Hbudget Hask. unfold send_message. cbn [on_agent agent].
  change (_max_tool_call_iterations (append (user_message message) (agent w)))
    with (_max_tool_call_iterations (agent w)).
  destruct (Z.to_nat (_max_tool_call_iterations (agent w)))
    as [|n] eqn:Hn; [lia|].
  match goal with
  | |- context [send_loop env (S n) 0 None ?w1] =>
      destruct (send_loop_insistent env (S n) 0 None w1 Hask)
        as (m' & w' & completions & -> & Hev & Hlen & r & Hlast & ->)
  end.
  exists r, w'. split; [done|].
  rewrite Hev. simpl. rewrite length_app, Hlen. split; [done|].
  rewrite Nat.sub_0_r.
  destruct completions as [|c completions] using rev_ind; [done|].
  rewrite last_snoc in Hlast. rewrite app_assoc, last_snoc. done.
Qed.

Lemma send_message_uses_whole_budget_witness :
  (send_message Demo.chatty "What time is it?"
                (Samples.fresh Samples.two_rounds)).1 = Ok "Let me check."
  ∧ ∃ r w',
      send_message Demo.chatty "What time is it?"
                   (Samples.fresh Samples.two_rounds)
        = (Ok match message_content (choice_message r) with
              | Some said => said
              | None => EmptyString
              end,
           w')
      ∧ length (filter is_completion (events w')) = 0 + 2
      ∧ last (filter is_completion (events w'))
        = Some (Completion 1 (Ok r)).
Proof.
  split; [reflexivity|].
  apply (send_message_uses_whole_budget Demo.chatty "What time is it?"
           (Samples.fresh Samples.two_rounds)).
  - vm_compute. discriminate.
  - intros iteration a. eexists. split; [reflexivity|].
    split; [discriminate|].
    repeat constructor. intros class_name what. vm_compute. discriminate.
Defined.

(** X19.  A requested call on whose arguments [json.loads] raises
    [JSONDecodeError] gets one tool message with the content Error parsing
    arguments: followed by the text of the exception, and a call whose
    arguments parse but whose name is not a key of the registry gets one
    tool message with the content Unknown tool: followed by the name; both
    messages carry the id and the name of the call, and the list of
    scheduled coroutines is left as it was.  When [json.loads] raises
    nothing else on the calls of a round, the [for] loop appends exactly
    one such message per such call, in the order of the calls, and the
    tool invocations the round performs are those of the other calls and
    no more. *)
Theorem refused_call_is_answered_not_invoked (env : Environment) (w : World)
    (tool_tasks : list Task) (tool_call : ToolCall) (calls : list ToolCall) :
  (∀ what,
     json_loads env (fn_arguments (call_function tool_call))
       = JSONDecodeError what →
     schedule env (agent w, tool_tasks) tool_call
       = Ok (append
               {| role := tool;
                  content := "Error parsing arguments: " +:+ what;
                  tool_call_id := Some (call_id tool_call);
                  name := Some (fn_name (call_function tool_call));
                  tool_calls := None |}
               (agent w),
             tool_tasks))
  ∧ (∀ function_args,
       json_loads env (fn_arguments (call_function tool_call))
         = Loaded function_args →
       _tools (agent w) !! fn_name (call_function tool_call) = None →
       schedule env (agent w, tool_tasks) tool_call
         = Ok (append
                 {| role := tool;
                    content :=
                      "Unknown tool: " +:+ fn_name (call_function tool_call);
                    tool_call_id := Some (call_id tool_call);
                    name := Some (fn_name (call_function tool_call));
                    tool_calls := None |}
                 (agent w),
               tool_tasks))
  ∧ (Forall (loads_quietly env) calls →
     ∃ new w',
       schedule_loop env calls (agent w, tool_tasks)
         = (None,
            (with_context
               (_context (agent w)
                ++ (refusal_message env
                      <$> filter (λ tc, refused env (agent w) tc = true)
                                 calls))
               (agent w),
             tool_tasks ++ new))
       ∧ tool_round env w calls = (None, w')
       ∧ events w'
         ≡ₚ events w
            ++ (requested_invocation
                  <$> filter (λ tc, refused env (agent w) tc = false) calls)).
Proof.
  split_and!.
  - intros what Hloads. unfold schedule. by rewrite Hloads.
  - intros function_args Hloads Hlook. unfold schedule.
    by rewrite Hloads, Hlook.
  - intros Hq.
    destruct (schedule_loop_log env calls (agent w) tool_tasks)
      as (raised & done & rest & new & Hloop & Hcalls & _ & Hr & _).
    destruct raised as [e|].
    { destruct Hr as (tc & rest' & -> & Hloads).
      rewrite Forall_forall in Hq.
      destruct (Hq tc) with (exc_class e) (exc_str e); [|done].
      rewrite Hcalls. apply elem_of_app. right. by left. }
    subst rest. rewrite app_nil_r in Hcalls. subst done.
    pose proof (tool_round_quiet env w calls Hq) as Hnone.
    destruct (tool_round_events env w calls) as (order & Hev & Hperm).
    destruct (tool_round env w calls) as [raised w'].
    simpl in *. subst raised. exists new, w'.
    split_and!; [done|done|]. by rewrite Hev, Hperm.
Qed.

Lemma refused_call_is_answered_not_invoked_witness :
  schedule Samples.quiet (new_agent default_settings, [])
           (Samples.request "call_0" "frobnicate" "{}")
    = Ok (append {| role := tool; content := "Unknown tool: frobnicate";
                    tool_call_id := Some "call_0";
                    name := Some "frobnicate"; tool_calls := None |}
                 (new_agent default_settings), [])
  ∧ schedule Samples.quiet (new_agent default_settings, [])
             (Samples.request "call_1" "get_datetime" "oops")
    = Ok (append
            {| role := tool;
               content :=
                 "Error parsing arguments: Expecting value: line 1 column 1 (char 0)";
               tool_call_id := Some "call_1"; name := Some "get_datetime";
               tool_calls := None |}
            (new_agent default_settings), [])
  ∧ ∃ new w',
      schedule_loop Samples.quiet
        [Samples.request "call_0" "frobnicate" "{}";
         Samples.request "call_1" "get_datetime" "oops";
         Samples.request "call_2" "get_datetime" "{}"]
        (new_agent default_settings, [])
        = (None,
           (with_context
              [ {| role := tool; content := "Unknown tool: frobnicate";
                   tool_call_id := Some "call_0";
                   name := Some "frobnicate"; tool_calls := None |};
                {| role := tool;
                   content :=
                     "Error parsing arguments: Expecting value: line 1 column 1 (char 0)";
                   tool_call_id := Some "call_1";
                   name := Some "get_datetime"; tool_calls := None |} ]
              (new_agent default_settings),
            [] ++ new))
      ∧ tool_round Samples.quiet (Samples.fresh default_settings)
          [Samples.request "call_0" "frobnicate" "{}";
           Samples.request "call_1" "get_datetime" "oops";
           Samples.request "call_2" "get_datetime" "{}"]
        = (None, w')
      ∧ events w' ≡ₚ [Invocation "call_2" "get_datetime"].
Proof.
  split_and!.
  - exact (proj1 (proj2 (refused_call_is_answered_not_invoked Samples.quiet
                           (Samples.fresh default_settings) []
                           (Samples.request "call_0" "frobnicate" "{}") []))
                 (JObject []) eq_refl eq_refl).
  - exact (proj1 (refused_call_is_answered_not_invoked Samples.quiet
                    (Samples.fresh default_settings) []
                    (Samples.request "call_1" "get_datetime" "oops") [])
                 _ eq_refl).
  - apply (proj2 (proj2 (refused_call_is_answered_not_invoked Samples.quiet
                           (Samples.fresh default_settings) []
                           (Samples.request "call_0" "frobnicate" "{}")
                           [Samples.request "call_0" "frobnicate" "{}";
                            Samples.request "call_1" "get_datetime" "oops";
                            Samples.request "call_2" "get_datetime" "{}"]))).
    repeat constructor; intros class_name what; vm_compute; discriminate.
Defined.

(* ===================================================================== *)
(** * Connections to tool servers                                         *)
(* ===================================================================== *)

Section Connections.
Context (servers : Servers).
Implicit Types (h : Host) (a : Agent) (client : Client).

(** Registering a listing: the listed names now map to their proxies,
    the other names are as before, and the conversation is untouched. *)
Lemma foldl_register keep_alive (tools : list ToolInfo) a :
  (∀ function_name,
     _tools (foldl (register keep_alive) a tools) !! function_name
       = if decide (function_name ∈ info_name <$> tools)
         then Some (MCPTool function_name keep_alive)
         else _tools a !! function_name)
  ∧ _context (foldl (register keep_alive) a tools) = _context a
  ∧ _total_context_tokens (foldl (register keep_alive) a tools)
    = _total_context_tokens a.
Proof.
  revert a. induction tools as [|tool_info tools IH]; intros a.
  - split; [|done]. intros function_name. rewrite fmap_nil.
    rewrite decide_False by apply not_elem_of_nil. done.
  - cbn [foldl]. destruct (IH (register keep_alive a tool_info))
      as (Hlook & -> & ->).
    split; [|done]. intros function_name. rewrite Hlook, fmap_cons.
    unfold register. simpl. rewrite lookup_insert.
    destruct (decide (info_name tool_info = function_name)) as [<-|Hne].
    + rewrite (decide_True (P := _ ∈ _ :: _)) by left. by case_decide.
    + destruct (decide (function_name ∈ info_name <$> tools)) as [Hin|Hnin].
      * by rewrite decide_True by (by right).
      * rewrite decide_False; [done|].
        intros [->|?]%elem_of_cons; done.
Qed.

Lemma close_loop_traffic clients h :
  match close_loop servers clients h with
  | (Ok _, h') =>
      h' = {| host_agent := host_agent h; _mcp_clients := _mcp_clients h;
              _open_clients := _open_clients h;
              traffic := traffic h ++ left_quietly clients |}
  | (Raise e, h') =>
      ∃ before client after,
        clients = before ++ client :: after
        ∧ h' = {| host_agent := host_agent h; _mcp_clients := _mcp_clients h;
                  _open_clients := _open_clients h;
                  traffic := traffic h ++ left_quietly before
                             ++ [Exited client (Some e)] |}
  end.
Proof.
  revert h. induction clients as [|client clients IH]; intros h.
  - simpl. rewrite app_nil_r. by destruct h.
  - cbn [close_loop].
    destruct (aexit servers (traffic h) client) as [e|] eqn:Hexit.
    + exists [], client, clients. split; [done|].
      unfold seen, left_quietly. simpl. done.
    + specialize (IH (seen (Exited client None) h)).
      destruct (close_loop servers clients (seen (Exited client None) h))
        as [[u|e] h'].
      * rewrite IH. simpl. by rewrite <- app_assoc.
      * destruct IH as (before & c & after & -> & ->).
        exists (client :: before), c, after. simpl.
        by rewrite <- app_assoc.
Qed.

Lemma entries_snoc (l : list Traffic) t :
  entries (l ++ [t]) = entries l + (if entered_ok t then 1 else 0).
Proof.
  unfold entries. rewrite filter_app, length_app. f_equal.
  destruct (entered_ok t) eqn:Ht.
  - rewrite filter_cons_True by (by rewrite Ht). done.
  - rewrite filter_cons_False by (rewrite Ht; intros []). done.
Qed.

Lemma exits_snoc (l : list Traffic) t :
  exits (l ++ [t]) = exits l + (if exited t then 1 else 0).
Proof.
  unfold exits. rewrite filter_app, length_app. f_equal.
  destruct (exited t) eqn:Ht.
  - rewrite filter_cons_True by (by rewrite Ht). done.
  - rewrite filter_cons_False by (rewrite Ht; intros []). done.
Qed.

Lemma add_mcp_server_balanced transport keep_alive h :
  balanced h → balanced (add_mcp_server servers transport keep_alive h).2.
Proof.
  unfold balanced, add_mcp_server, _load_tools. intros Hh.
  destruct keep_alive; cbn zeta; simpl.
  - destruct (aenter servers _ _) as [e|]; simpl.
    + rewrite entries_snoc, exits_snoc. simpl. lia.
    + destruct (list_tools servers _ _) as [tools|e]; simpl;
        rewrite !entries_snoc, !exits_snoc, length_app; simpl; lia.
  - destruct (aenter servers _ _) as [e|]; simpl.
    + rewrite entries_snoc, exits_snoc. simpl. lia.
    + destruct (aexit servers _ _) as [e|],
               (list_tools servers _ _) as [tools|e']; simpl;
        rewrite !entries_snoc, !exits_snoc; simpl; lia.
Qed.

Lemma add_all_balanced to_add h :
  balanced h → balanced (add_all servers h to_add).
Proof.
  unfold add_all. revert h.
  induction to_add as [|[transport keep_alive] to_add IH]; intros h Hh;
    [done|].
  cbn [foldl]. by apply IH, add_mcp_server_balanced.
Qed.

Lemma entries_left_quietly (l : list Traffic) clients :
  entries (l ++ left_quietly clients) = entries l
  ∧ exits (l ++ left_quietly clients) = exits l + length clients.
Proof.
  induction clients as [|client clients IH] using rev_ind.
  - unfold left_quietly. simpl. rewrite app_nil_r. split; [done|lia].
  - unfold left_quietly in *. rewrite fmap_app, app_assoc. simpl.
    rewrite entries_snoc, exits_snoc, length_app. simpl.
    destruct IH as [-> ->]. split; lia.
Qed.

Lemma close_traffic_when_ok h :
  (close servers h).1 = Ok () →
  traffic (close servers h).2 = traffic h ++ left_quietly (_open_clients h)
  ∧ _open_clients (close servers h).2 = [].
Proof.
  unfold close. pose proof (close_loop_traffic (_open_clients h) h) as Hloop.
  destruct (close_loop servers (_open_clients h) h) as [[u|e] h']; [|done].
  intros _. by subst h'.
Qed.

End Connections.

(** X12.  When adding a server succeeds, every tool of its listing is in
    the registry under its own name as a proxy with the given keep-alive
    flag, replacing whatever tool had that name (a built-in one too); all
    other names keep their tool, the conversation is untouched, the client
    is recorded, and it is kept open exactly when keep-alive is set. *)
Theorem add_mcp_server_registers_listing (servers : Servers)
    (transport : Transport) (keep_alive : bool) (h : Host) :
  (add_mcp_server servers transport keep_alive h).1 = Ok () →
  let h' := (add_mcp_server servers transport keep_alive h).2 in
  ∃ tools,
    Listed (MkClient transport) (Ok tools) ∈ traffic h'
    ∧ (∀ function_name,
         _tools (host_agent h') !! function_name
           = if decide (function_name ∈ info_name <$> tools)
             then Some (MCPTool function_name keep_alive)
             else _tools (host_agent h) !! function_name)
    ∧ _context (host_agent h') = _context (host_agent h)
    ∧ _total_context_tokens (host_agent h')
      = _total_context_tokens (host_agent h)
    ∧ _mcp_clients h' = _mcp_clients h ++ [MkClient transport]
    ∧ _open_clients h'
      = if keep_alive then _open_clients h ++ [MkClient transport]
        else _open_clients h.
Proof.
  unfold add_mcp_server, _load_tools.
  destruct keep_alive; cbn zeta; simpl.
  - destruct (aenter servers _ _) as [e|]; simpl; [done|].
    destruct (list_tools servers _ _) as [tools|e] eqn:Hlist; simpl; [|done].
    intros _. exists tools.
    destruct (foldl_register true tools (host_agent h)) as (Hlook & -> & ->).
    split_and!; try done. apply elem_of_app. right. by left.
  - destruct (aenter servers _ _) as [e|]; simpl; [done|].
    destruct (list_tools servers _ _) as [tools|e'] eqn:Hlist;
      destruct (aexit servers _ _) as [e|]; simpl; try done.
    intros _. exists tools.
    destruct (foldl_register false tools (host_agent h)) as (Hlook & -> & ->).
    split_and!; try done.
    apply elem_of_app. left. apply elem_of_app. right. by left.
Qed.

Lemma add_mcp_server_registers_listing_witness :
  ∃ tools : list ToolInfo,
    (∀ function_name,
       _tools (host_agent
                 (add_mcp_stdio_server Demo.calculator "python"
                    (Some ["mcp_server.py"; "--server"]) None true
                    (new_host default_settings)).2) !! function_name
         = if decide (function_name ∈ info_name <$> tools)
           then Some (MCPTool function_name true)
           else _tools (new_agent default_settings) !! function_name)
    ∧ _open_clients (add_mcp_stdio_server Demo.calculator "python"
                       (Some ["mcp_server.py"; "--server"]) None true
                       (new_host default_settings)).2
      = [MkClient Demo.python_server].
Proof.
  destruct (add_mcp_server_registers_listing Demo.calculator
              Demo.python_server true (new_host default_settings) eq_refl)
    as (tools & _ & Hlook & _ & _ & _ & Hopen).
  exists tools. split; [exact Hlook|exact Hopen].
Defined.

(** X13.  When adding a server raises, the agent is as it was, registry
    included, but the client stays recorded; with keep-alive set and the
    connection entered, it also stays in the list of open clients, where
    [close] will find it. *)
Theorem add_mcp_server_failure_keeps_client (servers : Servers)
    (transport : Transport) (keep_alive : bool) (h : Host) (e : Exception) :
  (add_mcp_server servers transport keep_alive h).1 = Raise e →
  let h' := (add_mcp_server servers transport keep_alive h).2 in
  host_agent h' = host_agent h
  ∧ _mcp_clients h' = _mcp_clients h ++ [MkClient transport]
  ∧ _open_clients h'
    = if keep_alive
      then match aenter servers (traffic h) (MkClient transport) with
           | None => _open_clients h ++ [MkClient transport]
           | Some _ => _open_clients h
           end
      else _open_clients h.
Proof.
  unfold add_mcp_server, _load_tools.
  destruct keep_alive; cbn zeta; simpl.
  - destruct (aenter servers _ _) as [e0|]; simpl; [done|].
    by destruct (list_tools servers _ _) as [tools|e0].
  - destruct (aenter servers _ _) as [e0|]; simpl; [done|].
    by destruct (list_tools servers _ _) as [tools|e'],
                (aexit servers _ _) as [e0|].
Qed.

Lemma add_mcp_server_failure_keeps_client_witness :
  _tools (host_agent (add_mcp_server Demo.mute Demo.python_server true
                        (new_host default_settings)).2)
    = _tools (new_agent default_settings)
  ∧ _open_clients (add_mcp_server Demo.mute Demo.python_server true
                     (new_host default_settings)).2
    = [MkClient Demo.python_server].
Proof.
  destruct (add_mcp_server_failure_keeps_client Demo.mute Demo.python_server
              true (new_host default_settings) Demo.connection_refused
              eq_refl) as (Hagent & _ & Hopen).
  split; [by rewrite Hagent|exact Hopen].
Defined.

(** X14.  When [close] returns, every open client was left exactly once,
    in the order the connections were opened, the list of open clients is
    empty, and nothing else changed; closing again does nothing. *)
Theorem close_leaves_every_open_client (servers : Servers) (h : Host) :
  (close servers h).1 = Ok () →
  (close servers h).2
    = {| host_agent := host_agent h; _mcp_clients := _mcp_clients h;
         _open_clients := [];
         traffic := traffic h ++ left_quietly (_open_clients h) |}
  ∧ close servers (close servers h).2 = (Ok (), (close servers h).2).
Proof.
  unfold close. pose proof (close_loop_traffic servers (_open_clients h) h)
    as Hloop.
  destruct (close_loop servers (_open_clients h) h) as [[u|e] h']; [|done].
  intros _. subst h'. simpl. done.
Qed.

Lemma close_leaves_every_open_client_witness :
  traffic (close Demo.calculator
             (add_mcp_server Demo.calculator Demo.python_server true
                (new_host default_settings)).2).2
    = traffic (add_mcp_server Demo.calculator Demo.python_server true
                 (new_host default_settings)).2
      ++ [Exited (MkClient Demo.python_server) None].
Proof.
  rewrite (proj1 (close_leaves_every_open_client Demo.calculator
                    (add_mcp_server Demo.calculator Demo.python_server true
                       (new_host default_settings)).2 eq_refl)).
  reflexivity.
Defined.

(** X15.  When leaving a client raises inside [close], the exception
    reaches the caller, the clients after it are not left, and the list of
    open clients is not emptied: it still holds the clients that were
    left already. *)
Theorem close_failure_keeps_open_clients (servers : Servers) (h : Host)
    (e : Exception) :
  (close servers h).1 = Raise e →
  ∃ before client after,
    _open_clients h = before ++ client :: after
    ∧ (close servers h).2
      = {| host_agent := host_agent h; _mcp_clients := _mcp_clients h;
           _open_clients := _open_clients h;
           traffic := traffic h ++ left_quietly before
                      ++ [Exited client (Some e)] |}.
Proof.
  unfold close. pose proof (close_loop_traffic servers (_open_clients h) h)
    as Hloop.
  destruct (close_loop servers (_open_clients h) h) as [[u|e'] h']; [done|].
  simpl. intros [= ->].
  destruct Hloop as (before & client & after & Hopen & ->). eauto.
Qed.

Lemma close_failure_keeps_open_clients_witness :
  ∃ before client after,
    [MkClient Demo.python_server] = before ++ client :: after
    ∧ _open_clients
        (close Demo.stuck
           (add_mcp_server Demo.stuck Demo.python_server true
              (new_host default_settings)).2).2
      = [MkClient Demo.python_server].
Proof.
  destruct (close_failure_keeps_open_clients Demo.stuck
              (add_mcp_server Demo.stuck Demo.python_server true
                 (new_host default_settings)).2
              Demo.connection_refused eq_refl)
    as (before & client & after & Hopen & Hstate).
  exists before, client, after. split; [exact Hopen|].
  by rewrite Hstate.
Defined.

(** X16.  However many servers are added to a new agent, with or without
    keep-alive, and whichever of the attempts fail, the connections
    entered and not yet left are exactly as many as the open clients the
    agent lists; when [close] then returns, every connection that was
    entered has been left. *)
Theorem connections_are_all_left (servers : Servers)
    (settings : AgentSettings) (to_add : list (Transport * bool)) :
  let h := add_all servers (new_host settings) to_add in
  balanced h
  ∧ match (close servers h).1 with
    | Ok _ =>
        entries (traffic (close servers h).2)
          = exits (traffic (close servers h).2)
        ∧ _open_clients (close servers h).2 = []
    | Raise _ => True
    end.
Proof.
  intros h.
  assert (balanced h) as Hbalanced.
  { apply add_all_balanced. reflexivity. }
  split; [done|].
  destruct (close servers h).1 as [u|e] eqn:Hclose; [|done].
  destruct u.
  destruct (close_traffic_when_ok servers h Hclose)
    as [-> ->].
  split; [|done]. unfold balanced in Hbalanced.
  destruct (entries_left_quietly (traffic h) (_open_clients h)) as [-> ->].
  done.
Qed.

(** X17.  A server that lists a tool named clear_context takes the place
    of the built-in one: once it is added with success to a new agent, no
    name of the registry leads to the context-reset tool any more, so no
    tool call can clear the conversation. *)
Theorem remote_tool_shadows_context_reset (servers : Servers)
    (settings : AgentSettings) (transport : Transport) (keep_alive : bool)
    (tools : list ToolInfo) :
  (add_mcp_server servers transport keep_alive (new_host settings)).1
    = Ok () →
  list_tools servers [Entered (MkClient transport) None] (MkClient transport)
    = Ok tools →
  "clear_context" ∈ info_name <$> tools →
  no_reset_tool
    (host_agent
       (add_mcp_server servers transport keep_alive (new_host settings)).2).
Proof.
  unfold add_mcp_server, _load_tools.
  destruct keep_alive; cbn zeta; simpl.
  - destruct (aenter servers _ _) as [e|]; simpl; [done|].
    intros Hok Hlist Hin. rewrite Hlist in Hok |- *. simpl.
    intros function_name.
    destruct (foldl_register true tools (new_agent settings)) as (-> & _).
    case_decide as Hlisted; [done|]. simpl.
    rewrite !lookup_insert, lookup_empty.
    repeat case_decide; congruence.
  - destruct (aenter servers _ _) as [e|]; simpl; [done|].
    intros Hok Hlist Hin. rewrite Hlist in Hok |- *.
    destruct (aexit servers _ _) as [e|]; simpl in *; [done|].
    intros function_name.
    destruct (foldl_register false tools (new_agent settings)) as (-> & _).
    case_decide as Hlisted; [done|]. simpl.
    rewrite !lookup_insert, lookup_empty.
    repeat case_decide; congruence.
Qed.

Lemma remote_tool_shadows_context_reset_witness :
  no_reset_tool
    (host_agent (add_mcp_server Demo.shadowing Demo.python_server true
                   (new_host default_settings)).2).
Proof.
  apply (remote_tool_shadows_context_reset Demo.shadowing default_settings
           Demo.python_server true [Demo.clear_context_info]).
  - reflexivity.
  - reflexivity.
  - left.
Defined.
